(** * Approval Manager (src/functions/approval-manager/index.py)

    Shallow embedding of the approval workflow of the Approval Manager
    Lambda: the DynamoDB tables [hagrid-access-requests] and
    [hagrid-approval-messages] as finite maps, the Slack and Lambda calls as
    an append-only log of outbound effects, and the handler functions as
    programs of a small state-and-exception monad. *)

From Stdlib Require Import String Ascii ZArith List Lia.
From stdpp Require Import base gmap strings list pretty.

Open Scope string_scope.

(* ------------------------------------------------------------------ *)
(** ** Data model *)

(** An item of the [access_requests_table], as written by
    [create_access_request]. *)
Record Request := mkRequest {
  request_id : string;
  user_id : string;
  user_email : string;
  app : string;
  role : string;
  group_name : option string;
  group_id : option string;
  status : string;
  approval_type : string;
  required_approvals : Z;
  approver_emails : list string;
  approvals_received : list string;
  denials_received : list string;
  created_at : string;
  updated_at : string
}.

(** An item of the [approval_messages_table].  [update_item] on a missing
    key creates an item holding only the key and the SET attributes, so
    every attribute but the key is optional. *)
Record Ticket := mkTicket {
  tk_request_id : option string;
  tk_approver_email : option string;
  tk_approver_slack_id : option string;
  tk_message_ts : option string;
  tk_status : option string;
  tk_handled_by : option string;
  tk_created_at : option string
}.

(** The [approval] object of a catalog role; a missing key is [None]
    ([role_config.get('approval', {})] with no [approval] key gives all
    [None]). *)
Record Approval := mkApproval {
  ap_type : option string;
  ap_approver_emails : option (list string);
  ap_threshold : option Z;
  ap_logic : option string
}.

Record Role := mkRole {
  cat_role_name : string;
  role_group_name : option string;
  role_group_id : option string;
  role_description : option string;
  role_approval : Approval
}.

Record App := mkApp {
  cat_app_name : string;
  app_roles : list Role
}.

(** The texts the code sends to Slack, one constructor per f-string. *)
Inductive Msg :=
| RoleNotFound (role_name app_name : string)
| EmailLookupFailed
| SentToApprovers (n : nat)
| NoApproversReached
| RequestGone
| AlreadyStatus (st : string)
| AlreadyResponded
| YouApproved (email app role : string)
| YouDenied (email app role : string)
| DeniedByApprover (app role : string)
| ApprovedBy (app role approver_user : string).

Inductive Warning :=
| ManagerNotImplemented
| BothNotImplemented
| UnknownApprovalType (t : string)
| ApproverNotInSlack (email : string).

(** Outbound calls: Slack [chat.postMessage] of a text, the approval DM with
    its buttons, the [response_url] update of a prompt, the asynchronous
    invocation of [hagrid-okta-provisioner], and warnings logged. *)
Inductive Effect :=
| SlackMessage (channel : string) (m : Msg)
| ApprovalDM (slack_id button_value : string)
| UpdatePrompt (response_url : string) (m : Msg)
| InvokeProvisioner (request_id user_email : string) (group_id : option string)
    (channel : string)
| LogWarning (w : Warning).

Record World := mkWorld {
  requests : gmap string Request;
  tickets : gmap string Ticket;
  effects : list Effect;
  next_uuid : nat;
  clock : nat
}.

(** [ValueError] of a tuple unpacking; [ValidationException] of a DynamoDB
    call given an empty string as key. *)
Inductive Exn := ValueError | ValidationException.

Inductive Result (A : Type) := Ok (a : A) | Raise (e : Exn).
Arguments Ok {A} a.
Arguments Raise {A} e.

(** The monad of the handlers: state of the world, and Python exceptions
    that leave the world as it was when they were raised. *)
Definition M (A : Type) := World -> Result A * World.

Definition ret {A} (a : A) : M A := fun w => (Ok a, w).
Definition bind {A B} (m : M A) (k : A -> M B) : M B :=
  fun w => match m w with
           | (Ok a, w') => k a w'
           | (Raise e, w') => (Raise e, w')
           end.
Definition raise {A} (e : Exn) : M A := fun w => (Raise e, w).

Notation "'let*' x ':=' m 'in' k" := (bind m (fun x => k))
  (at level 200, x name, m at level 100, k at level 200).
Notation "m ;;; k" := (bind m (fun _ => k)) (at level 100, right associativity).

Definition emit (e : Effect) : M unit :=
  fun w => (Ok tt, {| requests := requests w; tickets := tickets w;
                      effects := effects w ++ [e];
                      next_uuid := next_uuid w; clock := clock w |}).

(** [str(uuid.uuid4())]: a fresh identifier, drawn from a counter. *)
Definition uuid_of (n : nat) : string := "uuid-" +:+ pretty n.

Definition uuid4 : M string :=
  fun w => (Ok (uuid_of (next_uuid w)),
            {| requests := requests w; tickets := tickets w; effects := effects w;
               next_uuid := S (next_uuid w); clock := clock w |}).

(** [datetime.now(timezone.utc).isoformat()]. *)
Definition timestamp_of (n : nat) : string := "t" +:+ pretty n.

Definition now : M string :=
  fun w => (Ok (timestamp_of (clock w)),
            {| requests := requests w; tickets := tickets w; effects := effects w;
               next_uuid := next_uuid w; clock := S (clock w) |}).

Definition get_requests : M (gmap string Request) := fun w => (Ok (requests w), w).

Definition set_requests (rs : gmap string Request) : M unit :=
  fun w => (Ok tt, {| requests := rs; tickets := tickets w; effects := effects w;
                      next_uuid := next_uuid w; clock := clock w |}).

Definition set_tickets (ts : gmap string Ticket) : M unit :=
  fun w => (Ok tt, {| requests := requests w; tickets := ts; effects := effects w;
                      next_uuid := next_uuid w; clock := clock w |}).

Definition get_tickets : M (gmap string Ticket) := fun w => (Ok (tickets w), w).

(* ------------------------------------------------------------------ *)
(** ** Python helpers *)

(** [x in xs] on a list of strings. *)
Definition py_in (x : string) (xs : list string) : bool :=
  existsb (String.eqb x) xs.

(** [str.lower()] on a string taken as its bytes: the letters [A]-[Z] are
    folded and every other byte is kept.  This is Python's [str.lower()] on
    ASCII strings only (Python also folds letters such as [É], and the
    Kelvin sign to [k]); properties that depend on case folding are stated
    for ASCII names. *)
Definition lower_char (c : ascii) : ascii :=
  let n := nat_of_ascii c in
  if (65 <=? n)%nat && (n <=? 90)%nat then ascii_of_nat (n + 32) else c.

Fixpoint lower (s : string) : string :=
  match s with
  | EmptyString => EmptyString
  | String c s' => String (lower_char c) (lower s')
  end.

(** [s.split(':')]: the pieces between the separators, [[""]] for [""]. *)
Fixpoint split_colon_acc (cur : string) (s : string) : list string :=
  match s with
  | EmptyString => [cur]
  | String c s' =>
      if Ascii.eqb c ":" then cur :: split_colon_acc EmptyString s'
      else split_colon_acc (cur +:+ String c EmptyString) s'
  end.

Definition split_colon (s : string) : list string := split_colon_acc EmptyString s.

(** [request_id, approval_msg_id = combined_value.split(':')]: the tuple
    unpacking raises [ValueError] unless there are exactly two pieces. *)
Definition decode_combined_value (v : string) : option (string * string) :=
  match split_colon v with
  | [a; b] => Some (a, b)
  | _ => None
  end.

(** [f"{request_id}:{approval_message_id}"] in [send_approval_requests]. *)
Definition encode_combined_value (request_id approval_message_id : string) : string :=
  request_id +:+ ":" +:+ approval_message_id.

Definition contains_colon (s : string) : bool :=
  existsb (fun c => Ascii.eqb c ":") (list_ascii_of_string s).

(** A Python string is truthy iff it is not empty; [None] is falsy. *)
Definition truthy (o : option string) : bool :=
  match o with
  | Some s => negb (String.eqb s "")
  | None => false
  end.

(** The string if it is truthy: the tests [if not x: continue] and [if x:]
    on an optional string. *)
Definition if_truthy (o : option string) : option string :=
  if truthy o then o else None.

(* ------------------------------------------------------------------ *)
(** ** Approval requirements (lines 378-409 of [process_new_request]) *)

(** [threshold if threshold > 0 else 1] *)
Definition threshold_or_one (threshold : Z) : Z :=
  if (threshold >? 0)%Z then threshold else 1%Z.

(** The [if/elif] chain computing [required_approvals], with the warnings
    it logs. *)
Definition required_approvals_for (approval_type logic : string)
    (approver_emails : list string) (threshold : Z) : Z * list Warning :=
  if String.eqb approval_type "NONE" then (0%Z, [])
  else if String.eqb approval_type "MANAGER" then (1%Z, [ManagerNotImplemented])
  else if String.eqb approval_type "BOTH" then
    ((if String.eqb logic "ALL" then
        (match approver_emails with [] => 1%Z | _ => Z.of_nat (length approver_emails) end)
      else threshold_or_one threshold), [BothNotImplemented])
  else if String.eqb approval_type "MANUAL" || String.eqb approval_type "ACCOUNT_ID" then
    ((if String.eqb logic "ALL" then
        (match approver_emails with [] => 1%Z | _ => Z.of_nat (length approver_emails) end)
      else threshold_or_one threshold), [])
  else (threshold_or_one threshold, [UnknownApprovalType approval_type]).

(* ------------------------------------------------------------------ *)
(** ** Vote aggregation: [check_approval_threshold] (lines 341-364) *)

Definition threshold_result (approval_type : string) (required : Z)
    (approvals denials : list string) : string :=
  match denials with
  | _ :: _ => "denied"
  | [] =>
      if String.eqb approval_type "NONE" then "approved"
      else if (Z.of_nat (length approvals) >=? required)%Z then "approved"
      else "pending"
  end.

(* ------------------------------------------------------------------ *)
(** ** DynamoDB functions *)

Definition get_access_request (rid : string) : M (option Request) :=
  fun w => (Ok (requests w !! rid), w).

Definition create_access_request (rid uid uemail app_name role_name : string)
    (gname gid : option string) (atype : string) (required : Z)
    (approvers : list string) : M bool :=
  let* t := now in
  let* rs := get_requests in
  set_requests (<[rid := {| request_id := rid; user_id := uid; user_email := uemail;
                            app := app_name; role := role_name;
                            group_name := gname; group_id := gid;
                            status := "pending"; approval_type := atype;
                            required_approvals := required;
                            approver_emails := approvers;
                            approvals_received := []; denials_received := [];
                            created_at := t; updated_at := t |}]> rs) ;;;
  ret true.

Definition create_approval_message (mid rid approver_email slack_id ts : string) : M bool :=
  let* t := now in
  let* ts_tbl := get_tickets in
  set_tickets (<[mid := {| tk_request_id := Some rid;
                           tk_approver_email := Some approver_email;
                           tk_approver_slack_id := Some slack_id;
                           tk_message_ts := Some ts; tk_status := Some "pending";
                           tk_handled_by := None; tk_created_at := Some t |}]> ts_tbl) ;;;
  ret true.

(** [approvals.append(approver_email)] unless already present. *)
Definition add_once (e : string) (xs : list string) : list string :=
  if py_in e xs then xs else xs ++ [e].

(** The attributes the [update_item] of [update_request_status] SETs on the
    stored item [cur]: status and [updated_at] always, and the approvals (or
    denials) list computed from the item [snap] read before. *)
Definition urs_apply (snap cur : Request) (st : string) (em act : option string)
    (t : string) : Request :=
  let approve := truthy act && String.eqb (default "" act) "approve" && truthy em in
  let deny := truthy act && String.eqb (default "" act) "deny" && truthy em in
  {| request_id := request_id cur; user_id := user_id cur; user_email := user_email cur;
     app := app cur; role := role cur; group_name := group_name cur;
     group_id := group_id cur; status := st; approval_type := approval_type cur;
     required_approvals := required_approvals cur;
     approver_emails := approver_emails cur;
     approvals_received :=
       if approve then add_once (default "" em) (approvals_received snap)
       else approvals_received cur;
     denials_received :=
       if approve then denials_received cur
       else if deny then add_once (default "" em) (denials_received snap)
       else denials_received cur;
     created_at := created_at cur; updated_at := t |}.

(** First half of [update_request_status]: the timestamp and
    [get_access_request]. *)
Definition urs_read (rid : string) : M (option (string * Request)) :=
  let* t := now in
  let* req := get_access_request rid in
  ret (match req with Some r => Some (t, r) | None => None end).

(** Second half: [return False] if nothing was read, else the
    [update_item], which applies to whatever item is stored under the key
    at that moment.  Items are never deleted, so the key read before is
    still present. *)
Definition urs_write (rid st : string) (em act : option string)
    (snap : option (string * Request)) : M bool :=
  match snap with
  | None => ret false
  | Some (t, r) =>
      let* rs := get_requests in
      match rs !! rid with
      | Some cur => set_requests (<[rid := urs_apply r cur st em act t]> rs) ;;; ret true
      | None => ret true
      end
  end.

Definition update_request_status (rid st : string) (em act : option string) : M bool :=
  let* snap := urs_read rid in urs_write rid st em act snap.

(** [approval_messages_table.update_item(... SET status = 'clicked',
    handled_by = user_id)]: an upsert. *)
(** The item [update_item(... SET status = 'clicked', handled_by = user_id)]
    leaves under a ticket key: an upsert. *)
Definition click_ticket (old : option Ticket) (uid : string) : Ticket :=
  match old with
  | Some tk => {| tk_request_id := tk_request_id tk;
                  tk_approver_email := tk_approver_email tk;
                  tk_approver_slack_id := tk_approver_slack_id tk;
                  tk_message_ts := tk_message_ts tk;
                  tk_status := Some "clicked"; tk_handled_by := Some uid;
                  tk_created_at := tk_created_at tk |}
  | None => {| tk_request_id := None; tk_approver_email := None;
               tk_approver_slack_id := None; tk_message_ts := None;
               tk_status := Some "clicked"; tk_handled_by := Some uid;
               tk_created_at := None |}
  end.

(** DynamoDB refuses an empty string as key value: [update_item] on the key
    [''] raises [ValidationException], which nothing catches. *)
Definition mark_ticket_clicked (mid uid : string) : M unit :=
  if String.eqb mid "" then raise ValidationException
  else
    let* ts := get_tickets in
    set_tickets (<[mid := click_ticket (ts !! mid) uid]> ts).

Definition check_approval_threshold (rid : string) : M string :=
  let* req := get_access_request rid in
  ret (match req with
       | None => "pending"
       | Some r => threshold_result (approval_type r) (required_approvals r)
                     (approvals_received r) (denials_received r)
       end).

(* ------------------------------------------------------------------ *)
(** ** The approval flow *)

(** The handler events of [lambda_handler]; a missing key is [""]
    (both are falsy for [all([...])]). *)
Inductive Event :=
| NewRequest (user_id channel app role : string)
| ApprovalResponse (user_id action_id action_value response_url : string).

Section Flow.

(** The catalog read from S3 ([{}] when the read fails: no applications). *)
Variable catalog : list App.
(** Slack [users.info]: the profile email of a user id. *)
Variable email_of : string -> option string.
(** Slack [users.lookupByEmail]: the user id of an email. *)
Variable slack_id_of : string -> option string.
(** The [ts] returned by [chat.postMessage] for an approval DM, if it was
    delivered. *)
Variable post_dm : string -> string -> option string.

(** The nested loops of [get_role_config]: an application whose name
    matches but has no matching role lets the outer loop go on. *)
Fixpoint find_role (apps : list App) (app_name role_name : string) : option Role :=
  match apps with
  | [] => None
  | a :: rest =>
      if String.eqb (lower (cat_app_name a)) (lower app_name) then
        match find (fun r => String.eqb (lower (cat_role_name r)) (lower role_name))
                   (app_roles a) with
        | Some r => Some r
        | None => find_role rest app_name role_name
        end
      else find_role rest app_name role_name
  end.

Definition get_role_config (app_name role_name : string) : option Role :=
  find_role catalog app_name role_name.

(** [get_requester_email] followed by the [if not ...email] test.  [email_of]
    is what the Slack lookup returns once the bot token is read; the SSM read
    of the token, which raises outside the [try] when it fails, is modelled
    apart in [ApprovalCache.get_slack_bot_token]. *)
Definition get_requester_email (uid : string) : option string :=
  if truthy (email_of uid) then email_of uid else None.

Definition send_slack_message (channel : string) (m : Msg) : M unit :=
  emit (SlackMessage channel m).

Definition update_approval_message (response_url : string) (m : Msg) : M unit :=
  emit (UpdatePrompt response_url m).

Fixpoint send_approval_loop (rid : string) (emails : list string) (sent : nat) : M nat :=
  match emails with
  | [] => ret sent
  | e :: es =>
      match if_truthy (slack_id_of e) with
      | None => emit (LogWarning (ApproverNotInSlack e)) ;;; send_approval_loop rid es sent
      | Some sid =>
          let* mid := uuid4 in
          let combined := encode_combined_value rid mid in
          emit (ApprovalDM sid combined) ;;;
          match if_truthy (post_dm sid combined) with
          | Some ts =>
              create_approval_message mid rid e sid ts ;;;
              send_approval_loop rid es (S sent)
          | None => send_approval_loop rid es sent
          end
      end
  end.

Definition send_approval_requests (rid : string) (approvers : list string)
    (channel : string) : M unit :=
  let* sent := send_approval_loop rid approvers 0 in
  if (0 <? sent)%nat then send_slack_message channel (SentToApprovers sent)
  else send_slack_message channel NoApproversReached.

Fixpoint log_warnings (ws : list Warning) : M unit :=
  match ws with
  | [] => ret tt
  | w :: ws' => emit (LogWarning w) ;;; log_warnings ws'
  end.

Definition process_new_request (uid channel app_name role_name : string)
    : M (option string) :=
  match get_role_config app_name role_name with
  | None =>
      send_slack_message channel (RoleNotFound role_name app_name) ;;; ret None
  | Some rc =>
      let ap := role_approval rc in
      let atype := default "MANUAL" (ap_type ap) in
      let approvers := default [] (ap_approver_emails ap) in
      let threshold := default 1%Z (ap_threshold ap) in
      let logic := default "ANY" (ap_logic ap) in
      let '(required, ws) := required_approvals_for atype logic approvers threshold in
      log_warnings ws ;;;
      match get_requester_email uid with
      | None => send_slack_message channel EmailLookupFailed ;;; ret None
      | Some remail =>
          let* rid := uuid4 in
          create_access_request rid uid remail app_name role_name
            (role_group_name rc) (role_group_id rc) atype required approvers ;;;
          if String.eqb atype "NONE" then
            update_request_status rid "approved" None None ;;;
            emit (InvokeProvisioner rid remail (role_group_id rc) channel) ;;;
            ret (Some rid)
          else
            send_approval_requests rid approvers channel ;;;
            ret (Some rid)
      end
  end.

(** Lines 551-570: the threshold check after an approval (or an unknown
    action). *)
Definition after_vote (uid rid : string) (r : Request) : M unit :=
  let* result := check_approval_threshold rid in
  if String.eqb result "approved" then
    update_request_status rid "approved" None None ;;;
    emit (SlackMessage (user_id r) (ApprovedBy (app r) (role r) uid)) ;;;
    emit (InvokeProvisioner rid (user_email r) (group_id r) (user_id r))
  else ret tt.

(** Lines 522-570 of [handle_approval_response]: after the approver's
    email is known and the ticket is marked. *)
Definition handle_click (uid action_id rid approver_email response_url : string) : M unit :=
  let* req := get_access_request rid in
  match req with
  | None => update_approval_message response_url RequestGone
  | Some r =>
      if negb (String.eqb (status r) "pending") then
        update_approval_message response_url (AlreadyStatus (status r))
      else if py_in approver_email (approvals_received r)
              || py_in approver_email (denials_received r) then
        update_approval_message response_url AlreadyResponded
      else if String.eqb action_id "approve_request" then
        update_request_status rid "pending" (Some approver_email) (Some "approve") ;;;
        update_approval_message response_url
          (YouApproved (user_email r) (app r) (role r)) ;;;
        after_vote uid rid r
      else if String.eqb action_id "deny_request" then
        update_request_status rid "denied" (Some approver_email) (Some "deny") ;;;
        update_approval_message response_url
          (YouDenied (user_email r) (app r) (role r)) ;;;
        send_slack_message (user_id r) (DeniedByApprover (app r) (role r))
      else after_vote uid rid r
  end.

Definition handle_approval_response (uid action_id combined_value response_url : string)
    : M unit :=
  match decode_combined_value combined_value with
  | None => raise ValueError
  | Some (rid, mid) =>
      match get_requester_email uid with
      | None => ret tt
      | Some approver_email =>
          mark_ticket_clicked mid uid ;;;
          handle_click uid action_id rid approver_email response_url
      end
  end.

(** [lambda_handler], returning the [statusCode]. *)
Definition lambda_handler (ev : Event) : M Z :=
  match ev with
  | NewRequest uid channel app_name role_name =>
      if truthy (Some uid) && truthy (Some channel) && truthy (Some app_name)
         && truthy (Some role_name) then
        process_new_request uid channel app_name role_name ;;; ret 200%Z
      else ret 400%Z
  | ApprovalResponse uid action_id value url =>
      if truthy (Some uid) && truthy (Some action_id) && truthy (Some value)
         && truthy (Some url) then
        handle_approval_response uid action_id value url ;;; ret 200%Z
      else ret 400%Z
  end.

(** One invocation: an uncaught exception fails the invocation, and what it
    wrote before stays written. *)
Definition step (w : World) (ev : Event) : World := snd (lambda_handler ev w).

Definition run (w : World) (evs : list Event) : World := fold_left step evs w.

Definition init : World :=
  {| requests := ∅; tickets := ∅; effects := []; next_uuid := 0; clock := 0 |}.

End Flow.

(** The interleaving of two concurrent calls of [update_request_status]
    on one request: both read, then both write. *)
Definition two_concurrent_updates (rid : string)
    (st1 : string) (em1 act1 : option string)
    (st2 : string) (em2 act2 : option string) : M (bool * bool) :=
  let* s1 := urs_read rid in
  let* s2 := urs_read rid in
  let* b1 := urs_write rid st1 em1 act1 s1 in
  let* b2 := urs_write rid st2 em2 act2 s2 in
  ret (b1, b2).

(** The aggregator as the spec's §4.3 words it, compared with
    [threshold_result]. *)
Definition evaluate_spec (approval_type : string) (required : Z)
    (approvals denials : list string) : string :=
  if negb (Nat.eqb (length denials) 0) then "denied"
  else if String.eqb approval_type "NONE" then "approved"
  else if (Z.of_nat (length approvals) >=? required)%Z then "approved"
  else "pending".

(* ------------------------------------------------------------------ *)
(** ** Sample data for the witnesses and counterexamples *)

(** A request of a 2-of-3 [MANUAL]/[ANY] role. *)
Definition sample_request (st : string) (appr den : list string) : Request :=
  {| request_id := "uuid-0"; user_id := "U1"; user_email := "req@example.com";
     app := "aws"; role := "developer"; group_name := None; group_id := Some "G1";
     status := st; approval_type := "MANUAL"; required_approvals := 2%Z;
     approver_emails := ["a@example.com"; "b@example.com"; "c@example.com"];
     approvals_received := appr; denials_received := den;
     created_at := "t0"; updated_at := "t0" |}.

Definition world_with (r : Request) : World :=
  {| requests := {[ request_id r := r ]}; tickets := ∅; effects := [];
     next_uuid := 4; clock := 1 |}.

(** A catalog with [aws/developer] (2-of-3 [MANUAL]/[ANY]) and
    [aws/readonly] (type [NONE]). *)
Definition sample_catalog : list App :=
  [ {| cat_app_name := "AWS";
       app_roles :=
         [ {| cat_role_name := "developer"; role_group_name := Some "aws-dev";
              role_group_id := Some "G1"; role_description := None;
              role_approval := {| ap_type := Some "MANUAL";
                                  ap_approver_emails :=
                                    Some ["a@example.com"; "b@example.com"; "c@example.com"];
                                  ap_threshold := Some 2%Z; ap_logic := Some "ANY" |} |};
           {| cat_role_name := "readonly"; role_group_name := Some "aws-ro";
              role_group_id := Some "G2"; role_description := None;
              role_approval := {| ap_type := Some "NONE"; ap_approver_emails := None;
                                  ap_threshold := None; ap_logic := None |} |} ] |} ].

(** A role whose approval type the code does not know, with no threshold. *)
Definition jit_role : Role :=
  {| cat_role_name := "oncall"; role_group_name := Some "aws-oncall";
     role_group_id := Some "G3"; role_description := None;
     role_approval := {| ap_type := Some "JIT"; ap_approver_emails := Some ["a@example.com"];
                         ap_threshold := None; ap_logic := Some "ALL" |} |}.

Definition jit_catalog : list App := [ {| cat_app_name := "AWS"; app_roles := [jit_role] |} ].



(** Slack users: the requester [U1] and the approvers [UA], [UB], [UC]. *)
Definition sample_email_of (u : string) : option string :=
  if String.eqb u "U1" then Some "req@example.com"
  else if String.eqb u "UA" then Some "a@example.com"
  else if String.eqb u "UB" then Some "b@example.com"
  else if String.eqb u "UC" then Some "c@example.com"
  else None.

Definition sample_slack_id_of (e : string) : option string := Some ("S-" +:+ e).

Definition sample_post_dm (slack_id value : string) : option string := Some "1700000000.0001".

(** The 2-of-3 scenario of the spec: a new request, then A approves, B
    denies, C approves, each with the token of the DM they received. *)
Definition scenario_a_b_c : list Event :=
  [ NewRequest "U1" "D1" "aws" "developer";
    ApprovalResponse "UA" "approve_request" "uuid-0:uuid-1" "https://hooks/a";
    ApprovalResponse "UB" "deny_request" "uuid-0:uuid-2" "https://hooks/b";
    ApprovalResponse "UC" "approve_request" "uuid-0:uuid-3" "https://hooks/c" ].

(** The same votes with the denial last: A approves, C approves, B denies. *)
Definition scenario_a_c_b : list Event :=
  [ NewRequest "U1" "D1" "aws" "developer";
    ApprovalResponse "UA" "approve_request" "uuid-0:uuid-1" "https://hooks/a";
    ApprovalResponse "UC" "approve_request" "uuid-0:uuid-3" "https://hooks/c";
    ApprovalResponse "UB" "deny_request" "uuid-0:uuid-2" "https://hooks/b" ].

(* ------------------------------------------------------------------ *)
(** ** Invariants of the reachable worlds *)

(** Effects other than a provisioning trigger and a denial notice. *)
Definition benign (e : Effect) : bool :=
  match e with
  | InvokeProvisioner _ _ _ _ => false
  | SlackMessage _ (DeniedByApprover _ _) => false
  | _ => true
  end.

(** The provisioning triggers for request [rid] in a log. *)
Definition prov_count (rid : string) (es : list Effect) : nat :=
  length (List.filter (fun e => match e with
                                | InvokeProvisioner rid' _ _ _ => String.eqb rid' rid
                                | _ => false
                                end) es).

(** The "was denied by an approver" notices sent to requesters. *)
Definition denial_notices (es : list Effect) : nat :=
  length (List.filter (fun e => match e with
                                | SlackMessage _ (DeniedByApprover _ _) => true
                                | _ => false
                                end) es).

Definition denied_count (m : gmap string Request) : nat :=
  size (filter (fun kv : string * Request => status kv.2 = "denied") m).

Definition approved_flag (o : option Request) : nat :=
  match o with
  | Some r => if String.eqb (status r) "approved" then 1 else 0
  | None => 0
  end.

(** A well-formed request item. *)
Record ReqInv (r : Request) : Prop := {
  ri_status : status r = "pending" \/ status r = "approved" \/ status r = "denied";
  ri_nodup_approvals : NoDup (approvals_received r);
  ri_nodup_denials : NoDup (denials_received r);
  ri_disjoint : forall e, In e (approvals_received r) -> ~ In e (denials_received r);
  ri_denied : denials_received r <> [] -> status r = "denied"
}.

(** The invariant of the worlds reachable from [init]: well-formed items,
    keys drawn from the uuid counter, one provisioning trigger per approved
    request, one denial notice per denied request. *)
Record Inv (w : World) : Prop := {
  inv_items : forall k r, requests w !! k = Some r -> ReqInv r;
  inv_keys : forall k r, requests w !! k = Some r ->
             exists n, k = uuid_of n /\ (n < next_uuid w)%nat;
  inv_prov : forall k, prov_count k (effects w) = approved_flag (requests w !! k);
  inv_denied : denial_notices (effects w) = denied_count (requests w)
}.

(** A step that touches no request and fires no terminal effect. *)
Definition quiet_step (w w' : World) : Prop :=
  requests w' = requests w /\ (next_uuid w <= next_uuid w')%nat /\
  exists es, effects w' = (effects w ++ es)%list /\ forallb benign es = true.

(** What every step does: the counter grows, the log grows, and a request
    that is no longer pending stays as it is. *)
Definition evolves (w w' : World) : Prop :=
  (next_uuid w <= next_uuid w')%nat /\ (exists es, effects w' = (effects w ++ es)%list) /\
  forall k r, requests w !! k = Some r -> status r <> "pending" ->
              requests w' !! k = Some r.

(** A program all of whose runs are quiet steps. *)
Definition quiet {A} (m : M A) : Prop := forall w, quiet_step w (snd (m w)).


(* ================================================================== *)
(** * Python values shared by the handlers *)

From Stdlib Require Import QArith_base Qabs Lqa.

(** A value of [json.loads]: JSON numbers as rationals (a float is a
    rational number), objects as their key/value pairs in document order. *)
#[warnings="-register-all"]
Inductive Json :=
| JNull
| JBool (b : bool)
| JNum (q : Q)
| JStr (s : string)
| JArr (l : list Json)
| JObj (kvs : list (string * Json)).

(** Python truthiness of a JSON value. *)
Definition json_truthy (j : Json) : bool :=
  match j with
  | JNull => false
  | JBool b => b
  | JNum q => negb (Qeq_bool q 0)
  | JStr s => negb (String.eqb s "")
  | JArr l => negb (bool_decide (l = []))
  | JObj kvs => negb (bool_decide (kvs = []))
  end.

(** [v == 'text'] for a JSON value [v]. *)
Definition json_is_str (j : Json) (s : string) : bool :=
  match j with JStr s' => String.eqb s' s | _ => false end.

(** [d[k]] of a dict built from key/value pairs: a later pair overwrites an
    earlier one (dict comprehension, and [json.loads] of a repeated key). *)
Definition dict_get {V} (kvs : list (string * V)) (k : string) : option V :=
  fold_left (fun acc kv => if String.eqb (fst kv) k then Some (snd kv) else acc) kvs None.

Inductive PyExn := AttributeError | TypeError | KeyError | IndexError
                 | IntValueError | OverflowError | JSONDecodeError | ClientError.

Inductive PyResult (A : Type) := POk (a : A) | PRaise (e : PyExn).
Arguments POk {A} a.
Arguments PRaise {A} e.

(** [j.get(k, d)]: only a dict has [.get]. *)
Definition py_get (j : Json) (k : string) (d : Json) : PyResult Json :=
  match j with
  | JObj kvs => POk (default d (dict_get kvs k))
  | _ => PRaise AttributeError
  end.

(** [j[0]] of a JSON value: a list gives its head, a string its first
    character, a dict has no key [0] (JSON keys are strings), and the other
    values are not subscriptable. *)
Definition py_index0 (j : Json) : PyResult Json :=
  match j with
  | JArr (x :: _) => POk x
  | JArr [] => PRaise IndexError
  | JStr (String c _) => POk (JStr (String c EmptyString))
  | JStr EmptyString => PRaise IndexError
  | JObj _ => PRaise KeyError
  | _ => PRaise TypeError
  end.

(** [s.isascii()]. *)
Definition is_ascii (s : string) : bool :=
  forallb (fun c => (nat_of_ascii c <? 128)%nat) (list_ascii_of_string s).

(** Every application and role name of a catalog is ASCII. *)
Definition catalog_ascii (catalog : list App) : bool :=
  forallb (fun a => is_ascii (cat_app_name a) &&
                    forallb (fun r => is_ascii (cat_role_name r)) (app_roles a)) catalog.

(** [hmac.compare_digest(a, b)] on two [str]: a [TypeError] unless both are
    ASCII, else their equality. *)
Definition compare_digest (a b : string) : PyResult bool :=
  if is_ascii a && is_ascii b then POk (String.eqb a b) else PRaise TypeError.

Fixpoint is_prefix (p s : string) : bool :=
  match p, s with
  | EmptyString, _ => true
  | String a p', String b s' => Ascii.eqb a b && is_prefix p' s'
  | _, _ => false
  end.

(** [p in s] on two strings. *)
Fixpoint contains_sub (p s : string) : bool :=
  is_prefix p s ||
  match s with
  | EmptyString => false
  | String _ s' => contains_sub p s'
  end.

(* ------------------------------------------------------------------ *)
(** ** The caches of the Approval Manager (approval-manager/index.py) *)

Module ApprovalCache.

(** The module globals [_slack_bot_token] and [_okta_catalog_data], and how
    many times SSM and S3 were called so far. *)
Record CacheState := mkCacheState {
  slack_bot_token : option string;
  okta_catalog_data : option Json;
  ssm_calls : nat;
  s3_calls : nat;
  errors_logged : nat
}.

Section Caches.

(** The [n]-th [ssm.get_parameter] call: the parameter value, or [None]
    when it raises. *)
Variable ssm_value : nat -> option string.
(** The [n]-th [s3_client.get_object] followed by the UTF-8 decode and
    [json.loads]: the loaded value, or [None] when one of them raises. *)
Variable s3_catalog : nat -> option Json.

Definition get_slack_bot_token (st : CacheState) : PyResult string * CacheState :=
  match slack_bot_token st with
  | Some t => if String.eqb t "" then
                let st' := {| slack_bot_token := slack_bot_token st;
                              okta_catalog_data := okta_catalog_data st;
                              ssm_calls := S (ssm_calls st); s3_calls := s3_calls st;
                              errors_logged := errors_logged st |} in
                match ssm_value (ssm_calls st) with
                | None => (PRaise ClientError, st')
                | Some v => (POk v, {| slack_bot_token := Some v;
                                       okta_catalog_data := okta_catalog_data st';
                                       ssm_calls := ssm_calls st'; s3_calls := s3_calls st';
                                       errors_logged := errors_logged st' |})
                end
              else (POk t, st)
  | None =>
      let st' := {| slack_bot_token := slack_bot_token st;
                    okta_catalog_data := okta_catalog_data st;
                    ssm_calls := S (ssm_calls st); s3_calls := s3_calls st;
                    errors_logged := errors_logged st |} in
      match ssm_value (ssm_calls st) with
      | None => (PRaise ClientError, st')
      | Some v => (POk v, {| slack_bot_token := Some v;
                             okta_catalog_data := okta_catalog_data st';
                             ssm_calls := ssm_calls st'; s3_calls := s3_calls st';
                             errors_logged := errors_logged st' |})
      end
  end.

(** The S3 read inside the [try]: a failure is logged and gives [{}]
    without touching the cache. *)
Definition fetch_catalog (st : CacheState) : Json * CacheState :=
  match s3_catalog (s3_calls st) with
  | Some j => (j, {| slack_bot_token := slack_bot_token st; okta_catalog_data := Some j;
                     ssm_calls := ssm_calls st; s3_calls := S (s3_calls st);
                     errors_logged := errors_logged st |})
  | None => (JObj [], {| slack_bot_token := slack_bot_token st;
                         okta_catalog_data := okta_catalog_data st;
                         ssm_calls := ssm_calls st; s3_calls := S (s3_calls st);
                         errors_logged := S (errors_logged st) |})
  end.

Definition get_okta_catalog_data (st : CacheState) : Json * CacheState :=
  match okta_catalog_data st with
  | Some c => if json_truthy c then (c, st) else fetch_catalog st
  | None => fetch_catalog st
  end.

End Caches.

End ApprovalCache.

(* ------------------------------------------------------------------ *)
(** ** Event Handler (src/functions/event-handler/index.py) *)

Module EventHandler.

(** The log lines of the router. *)
Inductive LogLine := MissingSignatureHeaders | RequestTooOld (timestamp : string)
                   | InteractivityError.

(** Outbound calls: [ssm.get_parameter] of the signing secret, the
    asynchronous [lambda_client.invoke] of a function with a JSON payload,
    and the log. *)
Inductive Call :=
| SsmGetParameter
| InvokeLambda (function_name : string) (payload : Json)
| Log (l : LogLine).

(** The module global [_signing_secret] and the calls made so far. *)
Record EWorld := mkEWorld {
  signing_secret : option string;
  ssm_reads : nat;
  calls : list Call
}.

(** The Lambda event, as API Gateway passes it: the headers (a dict of
    strings, [{}] when absent) and the raw body ([''] when absent). *)
Record SlackEvent := mkSlackEvent {
  ev_headers : list (string * string);
  ev_body : string
}.

Record Response := mkResponse { status_code : Z; body : Json }.

(** The world [w] with the calls [es] made. *)
Definition with_calls (w : EWorld) (es : list Call) : EWorld :=
  {| signing_secret := signing_secret w; ssm_reads := ssm_reads w; calls := calls w ++ es |}.

Definition E (A : Type) := EWorld -> PyResult A * EWorld.

Definition eret {A} (a : A) : E A := fun w => (POk a, w).
Definition ebind {A B} (m : E A) (k : A -> E B) : E B :=
  fun w => match m w with
           | (POk a, w') => k a w'
           | (PRaise e, w') => (PRaise e, w')
           end.
(** A pure Python expression that may raise. *)
Definition lift {A} (r : PyResult A) : E A := fun w => (r, w).
Definition record_call (c : Call) : E unit :=
  fun w => (POk tt, {| signing_secret := signing_secret w; ssm_reads := ssm_reads w;
                       calls := calls w ++ [c] |}).

Notation "'let!' x ':=' m 'in' k" := (ebind m (fun x => k))
  (at level 200, x name, m at level 100, k at level 200).

(** [try: m  except Exception: h]. *)
Definition try_except (m : E unit) (h : E unit) : E unit :=
  fun w => match m w with
           | (POk a, w') => (POk a, w')
           | (PRaise _, w') => h w'
           end.

(** [{k.lower(): v for k, v in headers.items()}] *)
Definition lower_keys (hs : list (string * string)) : list (string * string) :=
  map (fun kv => (lower (fst kv), snd kv)) hs.

(** [headers_lower.get(name, '')] *)
Definition header (ev : SlackEvent) (name : string) : string :=
  default "" (dict_get (lower_keys (ev_headers ev)) name).

(** The largest finite double, [sys.float_info.max]. *)
Definition float_max : Z := (2^1024 - 2^971)%Z.

(** [float(n)] of an [int] raises [OverflowError] exactly when [|n|] is at
    least [2^1024 - 2^970], the values that round to [2^1024]. *)
Definition float_overflow_bound : Z := (2^1024 - 2^970)%Z.

Section Router.

(** The [n]-th [ssm.get_parameter] call: the value, or [None] when it
    raises. *)
Variable ssm_value : nat -> option string.
(** [json.loads] on a string: [None] is a [JSONDecodeError]. *)
Variable json_loads : string -> option Json.
(** [parse_qs] of a form body: its fields with their lists of values. *)
Variable parse_qs : string -> list (string * list string).
(** [int(s)] on a string: [None] is a [ValueError]. *)
Variable py_int : string -> option Z.
(** [hmac.new(key.encode(), msg.encode(), hashlib.sha256).hexdigest()] *)
Variable hmac_sha256_hex : string -> string -> string.
(** Whether [lambda_client.invoke] of a function with a payload returns
    (else it raises). *)
Variable invoke_ok : string -> Json -> bool.

Definition get_signing_secret : E string :=
  fun w =>
    match signing_secret w with
    | Some s => if String.eqb s "" then
                  let w1 := {| signing_secret := signing_secret w; ssm_reads := S (ssm_reads w);
                               calls := calls w ++ [SsmGetParameter] |} in
                  match ssm_value (ssm_reads w) with
                  | None => (PRaise ClientError, w1)
                  | Some v => (POk v, {| signing_secret := Some v; ssm_reads := ssm_reads w1;
                                         calls := calls w1 |})
                  end
                else (POk s, w)
    | None =>
        let w1 := {| signing_secret := signing_secret w; ssm_reads := S (ssm_reads w);
                     calls := calls w ++ [SsmGetParameter] |} in
        match ssm_value (ssm_reads w) with
        | None => (PRaise ClientError, w1)
        | Some v => (POk v, {| signing_secret := Some v; ssm_reads := ssm_reads w1;
                               calls := calls w1 |})
        end
    end.

(** [time.time()] is [now]; [time.time() - int(timestamp)] converts the
    integer to a float first, which raises [OverflowError] when it is too
    large; otherwise [abs(now - int(timestamp)) > 300] is computed on the
    exact values. *)
Definition verify_slack_signature (ev : SlackEvent) (now : Q) : E bool :=
  let timestamp := header ev "x-slack-request-timestamp" in
  let signature := header ev "x-slack-signature" in
  if String.eqb timestamp "" || String.eqb signature "" then
    let! _ := record_call (Log MissingSignatureHeaders) in eret false
  else
    match py_int timestamp with
    | None => lift (PRaise IntValueError)
    | Some t =>
        if (float_overflow_bound <=? Z.abs t)%Z then lift (PRaise OverflowError)
        else if negb (Qle_bool (Qabs (Qminus now (inject_Z t))) (inject_Z 300)) then
          let! _ := record_call (Log (RequestTooOld timestamp)) in eret false
        else
          let sig_basestring := "v0:" +:+ timestamp +:+ ":" +:+ ev_body ev in
          let! secret := get_signing_secret in
          let my_signature := "v0=" +:+ hmac_sha256_hex secret sig_basestring in
          lift (compare_digest my_signature signature)
    end.

Definition invoke (function_name : string) (payload : Json) : E unit :=
  let! _ := record_call (InvokeLambda function_name payload) in
  if invoke_ok function_name payload then eret tt else lift (PRaise ClientError).

(** The body of the [try] of [handle_interactivity]. *)
Definition interactivity_body (body_raw : string) : E unit :=
  let parsed := parse_qs body_raw in
  match default ["{}"] (dict_get parsed "payload") with
  | [] => lift (PRaise IndexError)
  | payload_str :: _ =>
      match json_loads payload_str with
      | None => lift (PRaise JSONDecodeError)
      | Some payload =>
          let! actions := lift (py_get payload "actions" (JArr [])) in
          if json_truthy actions then
            let! user := lift (py_get payload "user" (JObj [])) in
            let! user_id := lift (py_get user "id" JNull) in
            let! a0 := lift (py_index0 actions) in
            let! action_id := lift (py_get a0 "action_id" JNull) in
            let! a0' := lift (py_index0 actions) in
            let! action_value := lift (py_get a0' "value" JNull) in
            let! response_url := lift (py_get payload "response_url" JNull) in
            invoke "hagrid-approval-manager"
              (JObj [("type", JStr "approval_response"); ("user_id", user_id);
                     ("action_id", action_id); ("action_value", action_value);
                     ("response_url", response_url)])
          else eret tt
      end
  end.

Definition handle_interactivity (body_raw : string) : E unit :=
  try_except (interactivity_body body_raw) (record_call (Log InteractivityError)).

Definition handle_json_event (body_raw : string) : E Response :=
  match json_loads body_raw with
  | None => eret {| status_code := 200; body := JStr "Invalid JSON" |}
  | Some b =>
      let! ty := lift (py_get b "type" JNull) in
      if json_is_str ty "url_verification" then
        let! challenge := lift (py_get b "challenge" JNull) in
        eret {| status_code := 200; body := challenge |}
      else
        let! ty' := lift (py_get b "type" JNull) in
        let! _ :=
          (if json_is_str ty' "event_callback" then
             let! event_data := lift (py_get b "event" (JObj [])) in
             let! et := lift (py_get event_data "type" JNull) in
             if json_is_str et "message" then
               let! bot_id := lift (py_get event_data "bot_id" JNull) in
               if negb (json_truthy bot_id) then
                 let! user := lift (py_get event_data "user" JNull) in
                 let! text := lift (py_get event_data "text" (JStr "")) in
                 let! channel := lift (py_get event_data "channel" JNull) in
                 let! ts := lift (py_get event_data "ts" JNull) in
                 invoke "hagrid-conversation-manager"
                   (JObj [("user_id", user); ("text", text); ("channel", channel);
                          ("message_ts", ts)])
               else eret tt
             else eret tt
           else eret tt) in
        eret {| status_code := 200; body := JStr "ok" |}
  end.

Definition lambda_handler (ev : SlackEvent) (now : Q) : E Response :=
  let! verified := verify_slack_signature ev now in
  if negb verified then eret {| status_code := 401; body := JStr "Invalid signature" |}
  else
    let body_raw := ev_body ev in
    let content_type := header ev "content-type" in
    if contains_sub "application/x-www-form-urlencoded" content_type then
      let! _ := handle_interactivity body_raw in
      eret {| status_code := 200; body := JStr "ok" |}
    else handle_json_event body_raw.

End Router.

End EventHandler.

(* ================================================================== *)
(** * Properties *)

(** ** Strings *)

(** stdpp makes [String.append] [simpl never]: its two equations. *)
Lemma string_app_nil_l (b : string) : "" +:+ b = b.
Proof. reflexivity. Qed.

Lemma string_app_cons (x : ascii) (a b : string) : String x a +:+ b = String x (a +:+ b).
Proof. reflexivity. Qed.

Lemma string_app_assoc (a b c : string) : (a +:+ b) +:+ c = a +:+ (b +:+ c).
Proof.
  induction a as [|x a IH]; [done|].
  rewrite !string_app_cons. by rewrite IH.
Qed.

Lemma string_app_nil_r (a : string) : a +:+ "" = a.
Proof. induction a as [|x a IH]; [done|]. rewrite string_app_cons. by rewrite IH. Qed.

Lemma split_colon_acc_free (cur b : string) :
  contains_colon b = false -> split_colon_acc cur b = [cur +:+ b].
Proof.
  revert cur. induction b as [|c b IH]; intros cur Hb; simpl.
  - by rewrite string_app_nil_r.
  - unfold contains_colon in Hb. simpl in Hb.
    apply orb_false_iff in Hb as [Hc Hb].
    rewrite Hc. rewrite IH by exact Hb. rewrite string_app_assoc. done.
Qed.

Lemma split_colon_acc_sep (cur a b : string) :
  contains_colon a = false ->
  split_colon_acc cur (a +:+ String ":" b) = (cur +:+ a) :: split_colon_acc "" b.
Proof.
  revert cur. induction a as [|c a IH]; intros cur Ha.
  - rewrite string_app_nil_l, string_app_nil_r. simpl. done.
  - unfold contains_colon in Ha. simpl in Ha.
    apply orb_false_iff in Ha as [Hc Ha].
    rewrite string_app_cons. simpl. rewrite Hc.
    rewrite IH by exact Ha. rewrite string_app_assoc. done.
Qed.

(** ** C10: the button token *)

(** C10: joining a request id and an approval-message id that contain no
    [':'] with [':'] and splitting the token on [':'] gives the pair back;
    the token [a:b:c], with two separators, makes the tuple unpacking of
    [handle_approval_response] fail. *)
Theorem combined_value_roundtrip :
  (forall request_id approval_message_id : string,
     contains_colon request_id = false ->
     contains_colon approval_message_id = false ->
     decode_combined_value (encode_combined_value request_id approval_message_id)
       = Some (request_id, approval_message_id)) /\
  decode_combined_value "a:b:c" = None.
Proof.
  split; [|reflexivity].
  intros a b Ha Hb. unfold decode_combined_value, encode_combined_value, split_colon.
  change (":" +:+ b) with (String ":" b).
  rewrite split_colon_acc_sep by exact Ha.
  by rewrite split_colon_acc_free by exact Hb.
Qed.

Lemma combined_value_roundtrip_witness :
  decode_combined_value (encode_combined_value "uuid-0" "uuid-1") = Some ("uuid-0", "uuid-1").
Proof. apply (proj1 combined_value_roundtrip); reflexivity. Defined.

(** ** C4: the vote aggregator *)

(** C4: for a stored request, [check_approval_threshold] returns [denied]
    if the denials are non-empty, else [approved] for type [NONE], else
    [approved] if the approvals reach [required_approvals], else [pending],
    checked in that order, and it changes nothing. *)
Theorem check_approval_threshold_order (w : World) (rid : string) (r : Request) :
  requests w !! rid = Some r ->
  check_approval_threshold rid w =
    (Ok (evaluate_spec (approval_type r) (required_approvals r)
           (approvals_received r) (denials_received r)), w).
Proof.
  intros Hr. unfold check_approval_threshold, get_access_request, bind, ret.
  rewrite Hr. unfold threshold_result, evaluate_spec.
  by destruct (denials_received r).
Qed.

Lemma check_approval_threshold_order_witness :
  check_approval_threshold "uuid-0"
    (world_with (sample_request "pending" ["a@example.com"] ["b@example.com"]))
  = (Ok "denied",
     world_with (sample_request "pending" ["a@example.com"] ["b@example.com"])).
Proof.
  apply (check_approval_threshold_order _ "uuid-0"
           (sample_request "pending" ["a@example.com"] ["b@example.com"])).
  reflexivity.
Defined.

(** ** C5: the required-approval count *)

(** C5 as stated fails twice: [MANUAL] with logic [ALL] and no approvers
    requires 1, not the size 0 of the approver set; and an unrecognised
    type with threshold 3 requires 3, not 1. *)
Lemma required_approvals_claim_counterexample :
  fst (required_approvals_for "MANUAL" "ALL" [] 1%Z) <> Z.of_nat (length (@nil string)) /\
  fst (required_approvals_for "JIT" "ANY" [] 3%Z) <> 1%Z.
Proof. vm_compute. split; discriminate. Qed.

(** ** C2: the vote-recording update *)

(** C2 as stated fails: two approvers of one pending request run
    [update_request_status] at the same time; both read the empty approvals
    list, both writes succeed ([True]) although the second one lands on an
    item changed since it was read, and the first approval is lost. *)
Lemma update_request_status_lost_update :
  let '(res, w') :=
    two_concurrent_updates "uuid-0"
      "pending" (Some "a@example.com") (Some "approve")
      "pending" (Some "b@example.com") (Some "approve")
      (world_with (sample_request "pending" [] [])) in
  res = Ok (true, true) /\
  fmap approvals_received (requests w' !! "uuid-0") = Some ["b@example.com"].
Proof. vm_compute. split; reflexivity. Qed.

(** C2 (amended): [update_request_status] is a read followed by an
    unconditional [update_item].  The write, given what was read
    ([snap], at time [t]), succeeds whenever the key is stored, whatever the
    stored item [cur] has become in the meantime: it sets [status] and
    [updated_at], and replaces the voter's list (approvals for [approve],
    denials for [deny]) by the list read in [snap] with the voter appended
    if absent; there is no version counter and no conflict outcome. *)
Theorem urs_write_unconditional (w : World) (rid st t e act : string)
    (snap cur : Request) :
  e <> "" -> (act = "approve" \/ act = "deny") ->
  requests w !! rid = Some cur ->
  let r' := urs_apply snap cur st (Some e) (Some act) t in
  urs_write rid st (Some e) (Some act) (Some (t, snap)) w =
    (Ok true, {| requests := <[rid := r']> (requests w); tickets := tickets w;
                 effects := effects w; next_uuid := next_uuid w; clock := clock w |}) /\
  status r' = st /\ updated_at r' = t /\
  (if String.eqb act "approve" then
     approvals_received r' = add_once e (approvals_received snap) /\
     denials_received r' = denials_received cur
   else
     denials_received r' = add_once e (denials_received snap) /\
     approvals_received r' = approvals_received cur).
Proof.
  intros He Hact Hcur r'.
  assert (Hte : truthy (Some e) = true).
  { simpl. apply negb_true_iff, String.eqb_neq. exact He. }
  split; [unfold urs_write, bind, get_requests, set_requests, ret; by rewrite Hcur|].
  subst r'. unfold urs_apply. rewrite Hte.
  destruct Hact as [-> | ->]; simpl; repeat split; reflexivity.
Qed.

Lemma urs_write_unconditional_witness :
  fst (urs_write "uuid-0" "pending" (Some "b@example.com") (Some "approve")
         (Some ("t1", sample_request "pending" [] []))
         (world_with (sample_request "pending" ["a@example.com"] []))) = Ok true.
Proof.
  rewrite (proj1 (urs_write_unconditional
                    (world_with (sample_request "pending" ["a@example.com"] []))
                    "uuid-0" "pending" "t1" "b@example.com" "approve"
                    (sample_request "pending" [] [])
                    (sample_request "pending" ["a@example.com"] [])
                    ltac:(discriminate) (or_introl eq_refl) eq_refl)).
  reflexivity.
Defined.

(** ** C9: unknown application or role *)

Lemma find_role_none (apps : list App) (app_name role_name : string) :
  (forall a, In a apps -> lower (cat_app_name a) = lower app_name ->
   forall r, In r (app_roles a) -> lower (cat_role_name r) <> lower role_name) ->
  find_role apps app_name role_name = None.
Proof.
  induction apps as [|a apps IH]; intros Hno; [done|]. simpl.
  destruct (String.eqb_spec (lower (cat_app_name a)) (lower app_name)) as [Ha|Ha].
  - destruct (find _ (app_roles a)) as [r|] eqn:Hf.
    + apply find_some in Hf as [Hin Hr]. apply String.eqb_eq in Hr.
      exfalso. exact (Hno a (or_introl eq_refl) Ha r Hin Hr).
    + apply IH. intros a' Hin'. apply Hno. by right.
  - apply IH. intros a' Hin'. apply Hno. by right.
Qed.

(** C9: when no catalog application whose lower-cased name matches has a
    role whose lower-cased name matches, [process_new_request] sends the
    role-not-found message to the requester's channel, returns [None], and
    leaves the request table (and everything else) as it was. *)
Theorem process_new_request_unknown_role (catalog : list App)
    (email_of slack_id_of : string -> option string)
    (post_dm : string -> string -> option string)
    (uid channel app_nm role_nm : string) (w : World) :
  (forall a, In a catalog -> lower (cat_app_name a) = lower app_nm ->
   forall r, In r (app_roles a) -> lower (cat_role_name r) <> lower role_nm) ->
  process_new_request catalog email_of slack_id_of post_dm uid channel app_nm role_nm w =
    (Ok None, {| requests := requests w; tickets := tickets w;
                 effects := effects w ++ [SlackMessage channel (RoleNotFound role_nm app_nm)];
                 next_uuid := next_uuid w; clock := clock w |}).
Proof.
  intros Hno. unfold process_new_request, get_role_config.
  rewrite (find_role_none catalog app_nm role_nm Hno). reflexivity.
Qed.

Lemma process_new_request_unknown_role_witness :
  process_new_request sample_catalog sample_email_of sample_slack_id_of sample_post_dm
    "U1" "D1" "aws" "admin" init =
  (Ok None, {| requests := ∅; tickets := ∅;
               effects := [SlackMessage "D1" (RoleNotFound "admin" "aws")];
               next_uuid := 0; clock := 0 |}).
Proof.
  apply (process_new_request_unknown_role sample_catalog sample_email_of
           sample_slack_id_of sample_post_dm "U1" "D1" "aws" "admin" init).
  intros a Ha _ r Hr. simpl in Ha. destruct Ha as [<- | []].
  simpl in Hr. destruct Hr as [<- | [<- | []]]; vm_compute; discriminate.
Defined.

(** ** C6: requests that need no approval *)

(** C6 as stated fails: for the [NONE] role [aws/readonly], when Slack
    gives no email for the requester, no request record is created and the
    provisioner is not invoked; the requester is told the lookup failed. *)
Lemma process_new_request_none_claim_counterexample :
  let w' := snd (process_new_request sample_catalog (fun _ => None) sample_slack_id_of
                   sample_post_dm "U1" "D1" "aws" "readonly" init) in
  requests w' = ∅ /\ effects w' = [SlackMessage "D1" EmailLookupFailed].
Proof. split; reflexivity. Qed.

(** C6 (amended): for a role whose approval type is [NONE], when the
    requester's email is found, [process_new_request] stores the new request
    under a fresh id with status [approved] and no approvals or denials,
    invokes the provisioner once for it, and emits nothing else: no approval
    DM.  When the email lookup fails, it stores nothing, invokes nothing, and
    its only effect is the message telling the requester the lookup
    failed. *)
Theorem process_new_request_none_type (catalog : list App)
    (email_of slack_id_of : string -> option string)
    (post_dm : string -> string -> option string)
    (uid channel app_nm role_nm : string) (w : World) (rc : Role) :
  get_role_config catalog app_nm role_nm = Some rc ->
  ap_type (role_approval rc) = Some "NONE" ->
  (forall e,
     get_requester_email email_of uid = Some e ->
     let rid := uuid_of (next_uuid w) in
     let '(res, w') :=
       process_new_request catalog email_of slack_id_of post_dm uid channel app_nm role_nm w in
     res = Ok (Some rid) /\
     (exists r, requests w' = <[rid := r]> (requests w) /\ status r = "approved" /\
                approvals_received r = [] /\ denials_received r = []) /\
     effects w' = (effects w ++ [InvokeProvisioner rid e (role_group_id rc) channel])%list) /\
  (get_requester_email email_of uid = None ->
   process_new_request catalog email_of slack_id_of post_dm uid channel app_nm role_nm w =
   (Ok None, {| requests := requests w; tickets := tickets w;
                effects := (effects w ++ [SlackMessage channel EmailLookupFailed])%list;
                next_uuid := next_uuid w; clock := clock w |})).
Proof.
  intros Hrc Hty. split.
  - intros e He rid.
    unfold process_new_request. rewrite Hrc. cbn zeta. rewrite Hty.
    unfold default at 1. unfold required_approvals_for. simpl String.eqb. cbn iota.
    rewrite He.
    unfold log_warnings, uuid4, create_access_request, now, get_requests,
      set_requests, update_request_status, urs_read, urs_write, get_access_request, emit,
      bind, ret.
    simpl. repeat (rewrite lookup_insert_eq; simpl).
    split; [done|]. split; [|done].
    eexists. split; [by rewrite insert_insert_eq|]. simpl. done.
  - intros He.
    unfold process_new_request. rewrite Hrc. cbn zeta. rewrite Hty.
    unfold default at 1. unfold required_approvals_for. simpl String.eqb. cbn iota.
    rewrite He. reflexivity.
Qed.

Lemma process_new_request_none_type_witness :
  fst (process_new_request sample_catalog sample_email_of sample_slack_id_of sample_post_dm
         "U1" "D1" "aws" "readonly" init) = Ok (Some (uuid_of 0)).
Proof.
  pose proof (proj1 (process_new_request_none_type sample_catalog sample_email_of
                sample_slack_id_of sample_post_dm "U1" "D1" "aws" "readonly" init
                (nth 1 (app_roles (nth 0 sample_catalog (mkApp "" []))) (mkRole "" None None None (mkApproval None None None None)))
                eq_refl eq_refl) "req@example.com" eq_refl) as H.
  simpl in H.
  destruct (process_new_request _ _ _ _ _ _ _ _ _) as [res w'].
  exact (proj1 H).
Defined.

(** ** Evaluating the handler's steps *)

Lemma update_request_status_eval (rid st : string) (em act : option string) (w : World) :
  update_request_status rid st em act w =
  match requests w !! rid with
  | Some r =>
      (Ok true, {| requests := <[rid := urs_apply r r st em act (timestamp_of (clock w))]>
                                 (requests w);
                   tickets := tickets w; effects := effects w;
                   next_uuid := next_uuid w; clock := S (clock w) |})
  | None =>
      (Ok false, {| requests := requests w; tickets := tickets w; effects := effects w;
                    next_uuid := next_uuid w; clock := S (clock w) |})
  end.
Proof.
  unfold update_request_status, urs_read, urs_write, now, get_access_request,
    get_requests, set_requests, bind, ret. cbn.
  destruct (requests w !! rid) eqn:Hr; cbn; rewrite ?Hr; reflexivity.
Qed.

Lemma after_vote_eval (uid rid : string) (r : Request) (w : World) :
  after_vote uid rid r w =
  match requests w !! rid with
  | Some r0 =>
      if String.eqb (threshold_result (approval_type r0) (required_approvals r0)
                       (approvals_received r0) (denials_received r0)) "approved" then
        (Ok tt, {| requests := <[rid := urs_apply r0 r0 "approved" None None
                                          (timestamp_of (clock w))]> (requests w);
                   tickets := tickets w;
                   effects := effects w ++
                     [SlackMessage (user_id r) (ApprovedBy (app r) (role r) uid);
                      InvokeProvisioner rid (user_email r) (group_id r) (user_id r)];
                   next_uuid := next_uuid w; clock := S (clock w) |})
      else (Ok tt, w)
  | None => (Ok tt, w)
  end.
Proof.
  unfold after_vote, check_approval_threshold, get_access_request.
  cbv [bind ret]. cbn -[update_request_status emit threshold_result].
  destruct (requests w !! rid) as [r0|] eqn:Hr; [|reflexivity].
  destruct (String.eqb _ "approved"); [|reflexivity].
  rewrite update_request_status_eval, Hr. unfold emit. cbn.
  by rewrite <- app_assoc.
Qed.

Lemma py_in_add_once (e : string) (xs : list string) : py_in e (add_once e xs) = true.
Proof.
  unfold add_once. destruct (py_in e xs) eqn:H; [done|].
  unfold py_in. rewrite existsb_app. simpl. rewrite String.eqb_refl. by rewrite orb_true_r.
Qed.

Lemma get_requester_email_truthy (email_of : string -> option string) (uid e : string) :
  get_requester_email email_of uid = Some e -> truthy (Some e) = true.
Proof.
  unfold get_requester_email. destruct (truthy (email_of uid)) eqn:Ht; [|discriminate].
  intros H. by rewrite H in Ht.
Qed.

Lemma handle_approval_response_eval (email_of : string -> option string)
    (uid act v url : string) (w : World) :
  handle_approval_response email_of uid act v url w =
  match decode_combined_value v with
  | None => (Raise ValueError, w)
  | Some (rid, mid) =>
      match get_requester_email email_of uid with
      | None => (Ok tt, w)
      | Some e =>
          if String.eqb mid "" then (Raise ValidationException, w)
          else
          handle_click uid act rid e url
            {| requests := requests w;
               tickets := <[mid := click_ticket (tickets w !! mid) uid]> (tickets w);
               effects := effects w; next_uuid := next_uuid w; clock := clock w |}
      end
  end.
Proof.
  unfold handle_approval_response.
  destruct (decode_combined_value v) as [[rid mid]|]; [|reflexivity].
  destruct (get_requester_email email_of uid); [|reflexivity].
  unfold mark_ticket_clicked. destruct (String.eqb mid ""); reflexivity.
Qed.

Lemma handle_click_eval (uid act rid e url : string) (w : World) :
  handle_click uid act rid e url w =
  match requests w !! rid with
  | None =>
      (Ok tt, {| requests := requests w; tickets := tickets w;
                 effects := effects w ++ [UpdatePrompt url RequestGone];
                 next_uuid := next_uuid w; clock := clock w |})
  | Some r =>
      if negb (String.eqb (status r) "pending") then
        (Ok tt, {| requests := requests w; tickets := tickets w;
                   effects := effects w ++ [UpdatePrompt url (AlreadyStatus (status r))];
                   next_uuid := next_uuid w; clock := clock w |})
      else if py_in e (approvals_received r) || py_in e (denials_received r) then
        (Ok tt, {| requests := requests w; tickets := tickets w;
                   effects := effects w ++ [UpdatePrompt url AlreadyResponded];
                   next_uuid := next_uuid w; clock := clock w |})
      else if String.eqb act "approve_request" then
        after_vote uid rid r
          {| requests := <[rid := urs_apply r r "pending" (Some e) (Some "approve")
                                   (timestamp_of (clock w))]> (requests w);
             tickets := tickets w;
             effects := effects w ++ [UpdatePrompt url (YouApproved (user_email r) (app r) (role r))];
             next_uuid := next_uuid w; clock := S (clock w) |}
      else if String.eqb act "deny_request" then
        (Ok tt, {| requests := <[rid := urs_apply r r "denied" (Some e) (Some "deny")
                                          (timestamp_of (clock w))]> (requests w);
                   tickets := tickets w;
                   effects := effects w ++
                     [UpdatePrompt url (YouDenied (user_email r) (app r) (role r));
                      SlackMessage (user_id r) (DeniedByApprover (app r) (role r))];
                   next_uuid := next_uuid w; clock := S (clock w) |})
      else after_vote uid rid r w
  end.
Proof.
  unfold handle_click, get_access_request.
  cbv [bind ret]. cbn -[update_request_status after_vote py_in].
  destruct (requests w !! rid) as [r|] eqn:Hr; [|reflexivity].
  destruct (negb _); [reflexivity|].
  destruct (_ || _); [reflexivity|].
  destruct (String.eqb act "approve_request").
  - rewrite update_request_status_eval, Hr. reflexivity.
  - destruct (String.eqb act "deny_request"); [|reflexivity].
    rewrite update_request_status_eval, Hr. cbn. unfold send_slack_message, emit. cbn.
    by rewrite <- app_assoc.
Qed.

(** ** C8: a response submitted twice *)

(** C8 as stated fails: the ticket is not what rejects a second response.
    After [UA] approved with the token of ticket [uuid-1], a response by
    [UB] with the same token and decision is processed as a new vote: the
    approvals grow from one to two and the ticket's [handled_by] becomes
    [UB]. *)
Lemma same_ticket_second_response_counterexample :
  let w1 := run sample_catalog sample_email_of sample_slack_id_of sample_post_dm init
              [NewRequest "U1" "D1" "aws" "developer";
               ApprovalResponse "UA" "approve_request" "uuid-0:uuid-1" "https://hooks/a"] in
  let w2 := step sample_catalog sample_email_of sample_slack_id_of sample_post_dm w1
              (ApprovalResponse "UB" "approve_request" "uuid-0:uuid-1" "https://hooks/a") in
  fmap (fun r => length (approvals_received r)) (requests w1 !! "uuid-0") = Some 1%nat /\
  fmap (fun r => length (approvals_received r)) (requests w2 !! "uuid-0") = Some 2%nat /\
  fmap tk_handled_by (tickets w2 !! "uuid-1") = Some (Some "UB").
Proof. vm_compute. repeat split; reflexivity. Qed.

Lemma urs_apply_approve (snap cur : Request) (st e t : string) :
  truthy (Some e) = true ->
  let r' := urs_apply snap cur st (Some e) (Some "approve") t in
  status r' = st /\ approvals_received r' = add_once e (approvals_received snap) /\
  denials_received r' = denials_received cur.
Proof. intros Hte r'. subst r'. unfold urs_apply. rewrite Hte. cbn. by repeat split. Qed.

Lemma urs_apply_deny (snap cur : Request) (st e t : string) :
  truthy (Some e) = true ->
  let r' := urs_apply snap cur st (Some e) (Some "deny") t in
  status r' = st /\ denials_received r' = add_once e (denials_received snap) /\
  approvals_received r' = approvals_received cur.
Proof. intros Hte r'. subst r'. unfold urs_apply. rewrite Hte. cbn. by repeat split. Qed.

(** After a click with decision [approve] or [deny] by an approver whose
    email is [e], the request is terminal or lists [e]. *)
Lemma handle_click_settles (uid act rid e url : string) (w : World) :
  act = "approve_request" \/ act = "deny_request" -> truthy (Some e) = true ->
  match requests w !! rid with
  | None => requests (snd (handle_click uid act rid e url w)) !! rid = None
  | Some _ =>
      exists r1, requests (snd (handle_click uid act rid e url w)) !! rid = Some r1 /\
        (negb (String.eqb (status r1) "pending")
         || (py_in e (approvals_received r1) || py_in e (denials_received r1))) = true
  end.
Proof.
  intros Hact Hte. rewrite handle_click_eval.
  destruct (requests w !! rid) as [r|] eqn:Hr; [|exact Hr].
  destruct (negb (String.eqb (status r) "pending")) eqn:Hp; [by exists r; rewrite Hp|].
  destruct (py_in e (approvals_received r) || py_in e (denials_received r)) eqn:Hdup.
  { exists r. cbn. rewrite Hr, Hp, Hdup. done. }
  destruct Hact as [-> | ->]; cbn -[urs_apply py_in after_vote].
  - rewrite after_vote_eval. cbn -[urs_apply py_in]. rewrite lookup_insert_eq.
    destruct (String.eqb (threshold_result _ _ _ _) "approved").
    + cbn -[py_in]. rewrite lookup_insert_eq. eexists. split; [reflexivity|]. done.
    + cbn -[py_in add_once]. rewrite lookup_insert_eq. eexists. split; [reflexivity|].
      destruct (urs_apply_approve r r "pending" e (timestamp_of (clock w)) Hte)
        as (-> & -> & _).
      rewrite py_in_add_once. done.
  - rewrite lookup_insert_eq. eexists. split; [reflexivity|]. done.
Qed.

(** A click whose request is terminal or already lists the clicker only
    acknowledges it. *)
Lemma handle_click_ack (uid act rid e url : string) (w : World) (r : Request) :
  requests w !! rid = Some r ->
  (negb (String.eqb (status r) "pending")
   || (py_in e (approvals_received r) || py_in e (denials_received r))) = true ->
  let w' := snd (handle_click uid act rid e url w) in
  requests w' = requests w /\ tickets w' = tickets w /\
  (effects w' = (effects w ++ [UpdatePrompt url AlreadyResponded])%list \/
   exists s, s <> "pending" /\
             effects w' = (effects w ++ [UpdatePrompt url (AlreadyStatus s)])%list).
Proof.
  intros Hr Hdone w'. subst w'. rewrite handle_click_eval, Hr.
  destruct (String.eqb_spec (status r) "pending") as [Hp|Hp]; cbn.
  - cbn in Hdone. rewrite Hdone. cbn. split; [done|]. split; [done|]. by left.
  - split; [done|]. split; [done|]. right. by exists (status r).
Qed.

(** The click handler never writes the ticket table. *)
Lemma handle_click_tickets (uid act rid e url : string) (w : World) :
  tickets (snd (handle_click uid act rid e url w)) = tickets w.
Proof.
  rewrite handle_click_eval.
  destruct (requests w !! rid) as [r|] eqn:Hr; [|reflexivity].
  destruct (negb _); [reflexivity|].
  destruct (_ || _); [reflexivity|].
  destruct (String.eqb act "approve_request").
  - rewrite after_vote_eval. cbn [requests tickets].
    rewrite lookup_insert_eq. destruct (String.eqb _ "approved"); reflexivity.
  - destruct (String.eqb act "deny_request"); [reflexivity|].
    rewrite after_vote_eval, Hr. destruct (String.eqb _ "approved"); reflexivity.
Qed.

(** C8 (amended): what a response does to the ticket and to the request.
    (1) A response whose token splits into [(rid, mid)] with [mid <> ""],
    from a clicker whose email is found, marks the ticket [mid] [clicked]
    with [handled_by] the clicker, whatever the ticket held before: its
    status is never read.  (2) With [mid = ""] the ticket update raises
    [ValidationException] and the world is left as it was.  (3) With an
    undecodable token or a clicker without an email, the world is left as it
    was.  (4) The same response (same clicker, token and decision [approve]
    or [deny]) handled twice in a row: the second time the request table
    does not change, and when the first one reached a stored request, the
    second gets the acknowledgment "already responded" or "already been
    <status>" with a non-pending status, and nothing else.  (5) A response
    with decision [approve] or [deny], from a clicker whose email is in
    neither [approvals_received] nor [denials_received] of a pending request,
    records the vote: the email ends in the approvals, or in the denials with
    status [denied]. *)
Theorem approval_response_ticket_and_votes (email_of : string -> option string)
    (uid act v url : string) (w : World) :
  let w1 := snd (handle_approval_response email_of uid act v url w) in
  (forall rid mid,
     decode_combined_value v = Some (rid, mid) -> mid <> "" ->
     get_requester_email email_of uid <> None ->
     tickets w1 !! mid = Some (click_ticket (tickets w !! mid) uid)) /\
  (forall rid,
     decode_combined_value v = Some (rid, "") ->
     get_requester_email email_of uid <> None ->
     handle_approval_response email_of uid act v url w = (Raise ValidationException, w)) /\
  (decode_combined_value v = None \/ get_requester_email email_of uid = None ->
     w1 = w) /\
  ((act = "approve_request" \/ act = "deny_request") ->
   let w2 := snd (handle_approval_response email_of uid act v url w1) in
   requests w2 = requests w1 /\
   (forall rid mid r,
      decode_combined_value v = Some (rid, mid) -> mid <> "" ->
      get_requester_email email_of uid <> None ->
      requests w !! rid = Some r ->
      (effects w2 = (effects w1 ++ [UpdatePrompt url AlreadyResponded])%list \/
       exists s, s <> "pending" /\
                 effects w2 = (effects w1 ++ [UpdatePrompt url (AlreadyStatus s)])%list) /\
      tickets w2 !! mid = Some (click_ticket (tickets w1 !! mid) uid))) /\
  (forall rid mid e r,
     decode_combined_value v = Some (rid, mid) -> mid <> "" ->
     get_requester_email email_of uid = Some e ->
     requests w !! rid = Some r -> status r = "pending" ->
     py_in e (approvals_received r) = false -> py_in e (denials_received r) = false ->
     (act = "approve_request" ->
        exists r', requests w1 !! rid = Some r' /\ py_in e (approvals_received r') = true) /\
     (act = "deny_request" ->
        exists r', requests w1 !! rid = Some r' /\ status r' = "denied" /\
                   py_in e (denials_received r') = true)).
Proof.
  intros w1. subst w1. split; [|split; [|split; [|split]]].
  - intros rid mid Hd Hmid He. rewrite handle_approval_response_eval, Hd.
    destruct (get_requester_email email_of uid) as [e|]; [|congruence].
    apply String.eqb_neq in Hmid. rewrite Hmid.
    rewrite handle_click_tickets. cbn. by rewrite lookup_insert_eq.
  - intros rid Hd He. rewrite handle_approval_response_eval, Hd.
    destruct (get_requester_email email_of uid) as [e|]; [|congruence].
    reflexivity.
  - intros [Hd|He]; rewrite handle_approval_response_eval.
    + by rewrite Hd.
    + destruct (decode_combined_value v) as [[rid mid]|]; [|reflexivity].
      by rewrite He.
  - intros Hact w2. subst w2.
    rewrite (handle_approval_response_eval email_of uid act v url w).
    destruct (decode_combined_value v) as [[rid mid]|] eqn:Hd.
    2:{ cbn. rewrite handle_approval_response_eval, Hd. cbn.
        split; [done | intros; discriminate]. }
    destruct (get_requester_email email_of uid) as [e|] eqn:He.
    2:{ cbn. rewrite handle_approval_response_eval, Hd, He. cbn.
        split; [done | intros; congruence]. }
    destruct (String.eqb_spec mid "") as [Hmid|Hmid].
    { cbn. rewrite handle_approval_response_eval, Hd, He.
      rewrite (proj2 (String.eqb_eq mid "") Hmid). cbn.
      split; [done | intros rid' mid' r' Hd' Hne; injection Hd' as <- <-; congruence]. }
    pose proof (get_requester_email_truthy _ _ _ He) as Hte.
    set (wm := {| requests := requests w;
                  tickets := <[mid := click_ticket (tickets w !! mid) uid]> (tickets w);
                  effects := effects w; next_uuid := next_uuid w; clock := clock w |}).
    pose proof (handle_click_settles uid act rid e url wm Hact Hte) as Hset.
    set (w1 := snd (handle_click uid act rid e url wm)) in *.
    rewrite (handle_approval_response_eval email_of uid act v url w1), Hd, He.
    apply String.eqb_neq in Hmid as Hmid'. rewrite Hmid'.
    set (wm2 := {| requests := requests w1;
                   tickets := <[mid := click_ticket (tickets w1 !! mid) uid]> (tickets w1);
                   effects := effects w1; next_uuid := next_uuid w1; clock := clock w1 |}).
    cbn [requests wm] in Hset.
    destruct (requests w !! rid) as [r|] eqn:Hr.
    + destruct Hset as [r1 [Hr1 Hdone]].
      assert (Hr1' : requests wm2 !! rid = Some r1) by exact Hr1.
      destruct (handle_click_ack uid act rid e url wm2 r1 Hr1' Hdone) as [Hq [Ht Heff]].
      split; [exact Hq|].
      intros rid' mid' r' Hd' _ _ _.
      injection Hd' as <- <-.
      split; [exact Heff|]. rewrite Ht. cbn. by rewrite lookup_insert_eq.
    + rewrite handle_click_eval. cbn [requests wm2]. rewrite Hset. cbn.
      split; [done|]. intros rid' mid' r' Hd' _ _ Hr'.
      injection Hd' as <- <-. congruence.
  - intros rid mid e r Hd Hmid He Hr Hp Ha Hn.
    rewrite handle_approval_response_eval, Hd, He.
    apply String.eqb_neq in Hmid. rewrite Hmid.
    pose proof (get_requester_email_truthy _ _ _ He) as Hte.
    rewrite handle_click_eval. cbn [requests]. rewrite Hr, Hp, Ha, Hn. cbn -[urs_apply py_in after_vote].
    split.
    + intros ->. cbn -[urs_apply py_in after_vote].
      rewrite after_vote_eval. cbn [requests]. rewrite lookup_insert_eq.
      destruct (urs_apply_approve r r "pending" e (timestamp_of (clock w)) Hte)
        as (_ & Happ & _).
      destruct (String.eqb _ "approved").
      * cbn. rewrite lookup_insert_eq. eexists. split; [reflexivity|].
        unfold urs_apply at 1. cbn -[urs_apply]. rewrite Happ. apply py_in_add_once.
      * cbn. rewrite lookup_insert_eq. eexists. split; [reflexivity|].
        rewrite Happ. apply py_in_add_once.
    + intros ->. cbn -[urs_apply py_in]. rewrite lookup_insert_eq.
      destruct (urs_apply_deny r r "denied" e (timestamp_of (clock w)) Hte)
        as (Hst & Hden & _).
      eexists. split; [reflexivity|]. split; [exact Hst|]. rewrite Hden. apply py_in_add_once.
Qed.

Lemma approval_response_ticket_and_votes_witness :
  exists r', requests (snd (handle_approval_response sample_email_of "UA" "approve_request"
                              "uuid-0:uuid-1" "https://hooks/a"
                              (world_with (sample_request "pending" [] []))))
               !! "uuid-0" = Some r' /\ py_in "a@example.com" (approvals_received r') = true.
Proof.
  exact (proj1 (proj2 (proj2 (proj2 (proj2
           (approval_response_ticket_and_votes sample_email_of "UA" "approve_request"
              "uuid-0:uuid-1" "https://hooks/a" (world_with (sample_request "pending" [] []))))))
           "uuid-0" "uuid-1" "a@example.com" (sample_request "pending" [] [])
           eq_refl ltac:(discriminate) eq_refl eq_refl eq_refl eq_refl eq_refl) eq_refl).
Defined.

(** ** The invariant *)

Lemma uuid_of_inj (n m : nat) : uuid_of n = uuid_of m -> n = m.
Proof.
  unfold uuid_of. cbv [String.append]. intros H. injection H as H.
  fold (String.append (pretty n) "") in H.
  apply (inj pretty). exact H.
Qed.

Lemma prov_count_app (k : string) (l1 l2 : list Effect) :
  prov_count k (l1 ++ l2) = (prov_count k l1 + prov_count k l2)%nat.
Proof. unfold prov_count. by rewrite List.filter_app, length_app. Qed.

Lemma denial_notices_app (l1 l2 : list Effect) :
  denial_notices (l1 ++ l2) = (denial_notices l1 + denial_notices l2)%nat.
Proof. unfold denial_notices. by rewrite List.filter_app, length_app. Qed.

Lemma benign_counts (es : list Effect) :
  forallb benign es = true -> (forall k, prov_count k es = 0%nat) /\ denial_notices es = 0%nat.
Proof.
  induction es as [|e es IH]; [done|]. cbn. intros [He Hes]%andb_true_iff.
  destruct (IH Hes) as [Hp Hd]. unfold prov_count, denial_notices in *.
  destruct e as [c m| | | |]; cbn in He; try discriminate; cbn; try (split; done).
  destruct m; try discriminate; cbn; split; done.
Qed.

Lemma denied_count_insert (m : gmap string Request) (k : string) (r' : Request) :
  (forall r, m !! k = Some r -> status r = "pending") ->
  denied_count (<[k := r']> m) =
    (denied_count m + (if String.eqb (status r') "denied" then 1 else 0))%nat.
Proof.
  intros Hk. unfold denied_count. rewrite map_filter_insert.
  case_decide as Hd; cbn in Hd.
  - rewrite Hd. cbn. rewrite map_size_insert_None; [lia|].
    apply map_lookup_filter_None. right. intros r Hr. cbn.
    rewrite (Hk r Hr). discriminate.
  - rewrite map_filter_delete_not.
    + destruct (String.eqb_spec (status r') "denied"); [contradiction | lia].
    + intros r Hr. cbn. rewrite (Hk r Hr). discriminate.
Qed.

Lemma Inv_quiet (w w' : World) : Inv w -> quiet_step w w' -> Inv w' /\ evolves w w'.
Proof.
  intros [Hi Hk Hp Hd] (Hr & Hn & es & He & Hb).
  destruct (benign_counts es Hb) as [Hbp Hbd].
  split; [split|].
  - rewrite Hr. exact Hi.
  - rewrite Hr. intros k r Hkr. destruct (Hk k r Hkr) as (n & -> & Hlt).
    exists n. split; [done | lia].
  - intros k. rewrite He, prov_count_app, Hbp, Hr, Hp. lia.
  - rewrite He, denial_notices_app, Hbd, Hr, Hd. lia.
  - split; [done|]. split; [by exists es|]. intros k r Hkr _. by rewrite Hr.
Qed.

Lemma Inv_update (w w' : World) (k : string) (r' : Request) (es : list Effect) :
  Inv w ->
  (forall r, requests w !! k = Some r -> status r = "pending") ->
  ReqInv r' ->
  (exists n, k = uuid_of n /\ (n < next_uuid w')%nat) ->
  requests w' = <[k := r']> (requests w) ->
  (next_uuid w <= next_uuid w')%nat ->
  effects w' = (effects w ++ es)%list ->
  (forall k', prov_count k' es = if String.eqb k' k then approved_flag (Some r') else 0%nat) ->
  denial_notices es = (if String.eqb (status r') "denied" then 1 else 0)%nat ->
  Inv w' /\ evolves w w'.
Proof.
  intros [Hi Hkeys Hp Hd] Hpend Hr' Hfresh Hreq Hn Heff Hes_p Hes_d.
  split; [split|].
  - intros k2 r2. rewrite Hreq. destruct (String.eqb_spec k2 k) as [->|Hne].
    + rewrite lookup_insert_eq. intros [= <-]. exact Hr'.
    + rewrite lookup_insert_ne by congruence. apply Hi.
  - intros k2 r2. rewrite Hreq. destruct (String.eqb_spec k2 k) as [->|Hne].
    + intros _. exact Hfresh.
    + rewrite lookup_insert_ne by congruence. intros H2.
      destruct (Hkeys k2 r2 H2) as (n & -> & Hlt). exists n. split; [done | lia].
  - intros k2. rewrite Heff, prov_count_app, Hes_p, Hp, Hreq.
    destruct (String.eqb_spec k2 k) as [->|Hne].
    + rewrite lookup_insert_eq. destruct (requests w !! k) as [r|] eqn:Hk.
      * cbn. rewrite (Hpend r eq_refl). cbn. lia.
      * cbn. lia.
    + rewrite lookup_insert_ne by congruence. lia.
  - rewrite Heff, denial_notices_app, Hes_d, Hd, Hreq.
    rewrite (denied_count_insert _ _ _ Hpend). lia.
  - split; [done|]. split; [by exists es|].
    intros k2 r2 H2 Hnp. rewrite Hreq. destruct (String.eqb_spec k2 k) as [->|Hne].
    + exfalso. exact (Hnp (Hpend r2 H2)).
    + rewrite lookup_insert_ne by congruence. exact H2.
Qed.

Lemma evolves_trans (w1 w2 w3 : World) : evolves w1 w2 -> evolves w2 w3 -> evolves w1 w3.
Proof.
  intros (Hn1 & [es1 He1] & Ht1) (Hn2 & [es2 He2] & Ht2).
  split; [lia|]. split; [exists (es1 ++ es2)%list; by rewrite He2, He1, app_assoc|].
  intros k r Hk Hnp. apply Ht2; [apply Ht1|]; done.
Qed.

Lemma Inv_fresh (w : World) : Inv w -> requests w !! uuid_of (next_uuid w) = None.
Proof.
  intros HI. destruct (requests w !! uuid_of (next_uuid w)) as [r|] eqn:Hr; [|done].
  destruct (inv_keys w HI _ _ Hr) as (n & Hn & Hlt).
  apply uuid_of_inj in Hn. lia.
Qed.

Lemma quiet_step_refl (w : World) : quiet_step w w.
Proof. split; [done|]. split; [lia|]. exists []. by rewrite app_nil_r. Qed.

Lemma quiet_step_trans (w1 w2 w3 : World) :
  quiet_step w1 w2 -> quiet_step w2 w3 -> quiet_step w1 w3.
Proof.
  intros (Hr1 & Hn1 & es1 & He1 & Hb1) (Hr2 & Hn2 & es2 & He2 & Hb2).
  split; [congruence|]. split; [lia|]. exists (es1 ++ es2)%list.
  split; [by rewrite He2, He1, app_assoc|]. rewrite forallb_app. by rewrite Hb1, Hb2.
Qed.

Lemma quiet_bind {A B} (m : M A) (k : A -> M B) :
  quiet m -> (forall a, quiet (k a)) -> quiet (bind m k).
Proof.
  intros Hm Hk w. unfold bind. specialize (Hm w).
  destruct (m w) as [[a|e] w1]; cbn in *; [|exact Hm].
  exact (quiet_step_trans _ _ _ Hm (Hk a w1)).
Qed.

Lemma quiet_ret {A} (a : A) : quiet (ret a).
Proof. intros w. apply quiet_step_refl. Qed.

Lemma quiet_emit (e : Effect) : benign e = true -> quiet (emit e).
Proof.
  intros Hb w. split; [done|]. split; [done|]. exists [e]. cbn. by rewrite Hb.
Qed.

Lemma quiet_uuid4 : quiet uuid4.
Proof. intros w. split; [done|]. split; [cbn; lia|]. exists []. by rewrite app_nil_r. Qed.

Lemma quiet_now : quiet now.
Proof. intros w. split; [done|]. split; [cbn; lia|]. exists []. by rewrite app_nil_r. Qed.

Lemma quiet_get_tickets : quiet get_tickets.
Proof. intros w. apply quiet_step_refl. Qed.

Lemma quiet_set_tickets (ts : gmap string Ticket) : quiet (set_tickets ts).
Proof. intros w. split; [done|]. split; [cbn; lia|]. exists []. by rewrite app_nil_r. Qed.

Lemma quiet_create_approval_message (mid rid e sid ts : string) :
  quiet (create_approval_message mid rid e sid ts).
Proof.
  unfold create_approval_message.
  apply quiet_bind; [apply quiet_now | intros t].
  apply quiet_bind; [apply quiet_get_tickets | intros tbl].
  apply quiet_bind; [apply quiet_set_tickets | intros _]. apply quiet_ret.
Qed.

Lemma quiet_send_approval_requests (slack_id_of : string -> option string)
    (post_dm : string -> string -> option string) (rid : string)
    (approvers : list string) (channel : string) :
  quiet (send_approval_requests slack_id_of post_dm rid approvers channel).
Proof.
  unfold send_approval_requests. apply quiet_bind.
  - generalize 0%nat. induction approvers as [|e es IH]; intros sent; cbn.
    + apply quiet_ret.
    + destruct (if_truthy (slack_id_of e)) as [sid|].
      * apply quiet_bind; [apply quiet_uuid4 | intros mid].
        apply quiet_bind; [by apply quiet_emit | intros _].
        destruct (if_truthy (post_dm sid _)) as [ts|]; [|apply IH].
        apply quiet_bind; [apply quiet_create_approval_message | intros _]. apply IH.
      * apply quiet_bind; [by apply quiet_emit | intros _]. apply IH.
  - intros sent. destruct (0 <? sent)%nat; by apply quiet_emit.
Qed.

Lemma quiet_log_warnings (ws : list Warning) : quiet (log_warnings ws).
Proof.
  induction ws as [|x ws IH]; cbn; [apply quiet_ret|].
  apply quiet_bind; [by apply quiet_emit | intros _]. apply IH.
Qed.

Lemma log_warnings_ok (ws : list Warning) (w : World) :
  fst (log_warnings ws w) = Ok tt.
Proof.
  revert w. induction ws as [|x ws IH]; intros w; [done|]. cbn. apply IH.
Qed.

Lemma bind_then_ret_snd {A B} (m : M A) (b : B) (w : World) :
  snd ((m ;;; ret b) w) = snd (m w).
Proof. unfold bind, ret. destruct (m w) as [[a|e] w']; reflexivity. Qed.

(** Items after a vote. *)

Lemma py_in_In (e : string) (xs : list string) : py_in e xs = true <-> In e xs.
Proof.
  unfold py_in. rewrite existsb_exists. split.
  - intros (x & Hx & He). apply String.eqb_eq in He. by subst.
  - intros H. exists e. split; [done | apply String.eqb_refl].
Qed.

Lemma NoDup_snoc (e : string) (xs : list string) :
  NoDup xs -> ~ In e xs -> NoDup (xs ++ [e])%list.
Proof.
  intros Hnd Hin. apply NoDup_app. split; [done|]. split; [|apply NoDup_singleton].
  intros x Hx Hx'. apply Hin. apply list_elem_of_In. set_solver.
Qed.

Lemma pending_no_denials (r : Request) :
  ReqInv r -> status r = "pending" -> denials_received r = [].
Proof.
  intros HR Hp. destruct (denials_received r) as [|d ds] eqn:Hd; [done|].
  exfalso. rewrite (ri_denied r HR) in Hp; [discriminate | by rewrite Hd].
Qed.

Lemma ReqInv_approve (r : Request) (e t : string) :
  ReqInv r -> status r = "pending" -> truthy (Some e) = true ->
  (py_in e (approvals_received r) || py_in e (denials_received r)) = false ->
  ReqInv (urs_apply r r "pending" (Some e) (Some "approve") t).
Proof.
  intros HR Hp Hte Hdup. apply orb_false_iff in Hdup as [Ha _].
  pose proof (pending_no_denials r HR Hp) as Hd.
  destruct (urs_apply_approve r r "pending" e t Hte) as (Hs & Hap & Hde).
  unfold add_once in Hap. rewrite Ha in Hap.
  split; rewrite ?Hs, ?Hap, ?Hde, ?Hd.
  - by left.
  - apply NoDup_snoc; [apply HR|]. intros Hin. apply py_in_In in Hin. congruence.
  - constructor.
  - intros x _ [].
  - done.
Qed.

Lemma ReqInv_deny (r : Request) (e t : string) :
  ReqInv r -> status r = "pending" -> truthy (Some e) = true ->
  (py_in e (approvals_received r) || py_in e (denials_received r)) = false ->
  ReqInv (urs_apply r r "denied" (Some e) (Some "deny") t).
Proof.
  intros HR Hp Hte Hdup. apply orb_false_iff in Hdup as [Ha Hd'].
  pose proof (pending_no_denials r HR Hp) as Hd.
  destruct (urs_apply_deny r r "denied" e t Hte) as (Hs & Hde & Hap).
  assert (Hde1 : denials_received (urs_apply r r "denied" (Some e) (Some "deny") t) = [e]).
  { rewrite Hde. unfold add_once. rewrite Hd'. by rewrite Hd. }
  split; rewrite ?Hs, ?Hap, ?Hde1.
  - by right; right.
  - apply HR.
  - apply NoDup_singleton.
  - intros x Hx [<- | []]. apply py_in_In in Hx. congruence.
  - done.
Qed.

Lemma ReqInv_set_status (r : Request) (st t : string) :
  ReqInv r -> denials_received r = [] ->
  (st = "pending" \/ st = "approved") ->
  ReqInv (urs_apply r r st None None t).
Proof.
  intros HR Hd Hst. unfold urs_apply. cbn.
  split; cbn; rewrite ?Hd.
  - destruct Hst as [-> | ->]; [by left | by right; left].
  - apply HR.
  - constructor.
  - intros x _ [].
  - done.
Qed.

(** ** Each handler path keeps the invariant *)

Lemma bind_ok {A B} (m : M A) (k : A -> M B) (w w' : World) (a : A) :
  m w = (Ok a, w') -> bind m k w = k a w'.
Proof. intros Hm. unfold bind. by rewrite Hm. Qed.

Lemma bind_log_warnings {B} (ws : list Warning) (k : unit -> M B) (w : World) :
  bind (log_warnings ws) k w = k tt (snd (log_warnings ws w)).
Proof.
  unfold bind. pose proof (log_warnings_ok ws w) as H.
  destruct (log_warnings ws w) as [[[]|e] w']; cbn in *; congruence.
Qed.

Lemma Inv_chain (w w1 w2 : World) :
  evolves w w1 -> Inv w2 /\ evolves w1 w2 -> Inv w2 /\ evolves w w2.
Proof. intros H1 [H2 H3]. split; [done | by eapply evolves_trans]. Qed.

Lemma Inv_refl (w : World) : Inv w -> Inv w /\ evolves w w.
Proof. intros HI. apply Inv_quiet; [done | apply quiet_step_refl]. Qed.

Lemma Inv_emit_benign (w : World) (e : Effect) :
  Inv w -> benign e = true ->
  Inv {| requests := requests w; tickets := tickets w; effects := effects w ++ [e];
         next_uuid := next_uuid w; clock := clock w |} /\
  evolves w {| requests := requests w; tickets := tickets w; effects := effects w ++ [e];
               next_uuid := next_uuid w; clock := clock w |}.
Proof. intros HI Hb. apply Inv_quiet; [done|]. exact (quiet_emit e Hb w). Qed.

Lemma after_vote_Inv (uid rid : string) (r : Request) (w : World) :
  Inv w -> (forall r0, requests w !! rid = Some r0 -> status r0 = "pending") ->
  Inv (snd (after_vote uid rid r w)) /\ evolves w (snd (after_vote uid rid r w)).
Proof.
  intros HI Hpend. rewrite after_vote_eval.
  destruct (requests w !! rid) as [r0|] eqn:Hr0; [|by apply Inv_refl].
  destruct (String.eqb _ "approved"); [|by apply Inv_refl].
  cbn [snd]. pose proof (Hpend r0 eq_refl) as Hp0.
  eapply (Inv_update w _ rid (urs_apply r0 r0 "approved" None None (timestamp_of (clock w)))
            [SlackMessage (user_id r) (ApprovedBy (app r) (role r) uid);
             InvokeProvisioner rid (user_email r) (group_id r) (user_id r)]);
    try reflexivity.
  - exact HI.
  - intros r1; rewrite Hr0; exact (Hpend r1).
  - apply ReqInv_set_status; [exact (inv_items w HI rid r0 Hr0)| |by right].
    exact (pending_no_denials r0 (inv_items w HI rid r0 Hr0) Hp0).
  - exact (inv_keys w HI rid r0 Hr0).
  - intros k'. unfold prov_count. cbn. rewrite (String.eqb_sym rid k').
    by destruct (String.eqb k' rid).
Qed.

Lemma handle_click_Inv (uid act rid e url : string) (w : World) :
  Inv w -> truthy (Some e) = true ->
  Inv (snd (handle_click uid act rid e url w)) /\
  evolves w (snd (handle_click uid act rid e url w)).
Proof.
  intros HI Hte. rewrite handle_click_eval.
  destruct (requests w !! rid) as [r|] eqn:Hr; [|by apply Inv_emit_benign].
  destruct (negb (String.eqb (status r) "pending")) eqn:Hnp; [by apply Inv_emit_benign|].
  assert (Hp : status r = "pending").
  { apply negb_false_iff, String.eqb_eq in Hnp. exact Hnp. }
  pose proof (inv_items w HI rid r Hr) as HR.
  destruct (_ || _) eqn:Hdup; [by apply Inv_emit_benign|].
  destruct (String.eqb act "approve_request").
  - set (r1 := urs_apply r r "pending" (Some e) (Some "approve") (timestamp_of (clock w))).
    set (w1 := {| requests := <[rid := r1]> (requests w); tickets := tickets w;
                  effects := effects w ++ [UpdatePrompt url (YouApproved (user_email r) (app r) (role r))];
                  next_uuid := next_uuid w; clock := S (clock w) |}).
    assert (H1 : Inv w1 /\ evolves w w1).
    { eapply (Inv_update w w1 rid r1 [UpdatePrompt url (YouApproved (user_email r) (app r) (role r))]);
        try reflexivity.
      - done.
      - intros r0 Hr0. rewrite Hr in Hr0. by injection Hr0 as <-.
      - by apply ReqInv_approve.
      - exact (inv_keys w HI rid r Hr).
      - intros k'. by destruct (String.eqb k' rid). }
    destruct H1 as [HI1 Hev1]. apply (Inv_chain w w1); [done|].
    apply after_vote_Inv; [done|].
    intros r0. cbn. rewrite lookup_insert_eq. intros [= <-]. reflexivity.
  - destruct (String.eqb act "deny_request").
    + cbn [snd].
      eapply (Inv_update w _ rid (urs_apply r r "denied" (Some e) (Some "deny") (timestamp_of (clock w)))
                [UpdatePrompt url (YouDenied (user_email r) (app r) (role r));
                 SlackMessage (user_id r) (DeniedByApprover (app r) (role r))]);
        try reflexivity.
      * done.
      * intros r0 Hr0. rewrite Hr in Hr0. by injection Hr0 as <-.
      * by apply ReqInv_deny.
      * exact (inv_keys w HI rid r Hr).
      * intros k'. by destruct (String.eqb k' rid).
    + apply after_vote_Inv; [done|]. intros r0. rewrite Hr. by intros [= <-].
Qed.

Lemma handle_approval_response_Inv (email_of : string -> option string)
    (uid act v url : string) (w : World) :
  Inv w ->
  Inv (snd (handle_approval_response email_of uid act v url w)) /\
  evolves w (snd (handle_approval_response email_of uid act v url w)).
Proof.
  intros HI. rewrite handle_approval_response_eval.
  destruct (decode_combined_value v) as [[rid mid]|]; [|by apply Inv_refl].
  destruct (get_requester_email email_of uid) as [e|] eqn:He; [|by apply Inv_refl].
  destruct (String.eqb mid ""); [by apply Inv_refl|].
  set (wm := {| requests := requests w;
                tickets := <[mid := click_ticket (tickets w !! mid) uid]> (tickets w);
                effects := effects w; next_uuid := next_uuid w; clock := clock w |}).
  assert (Hq : quiet_step w wm).
  { split; [done|]. split; [done|]. exists []. by rewrite app_nil_r. }
  destruct (Inv_quiet w wm HI Hq) as [HIm Hevm].
  apply (Inv_chain w wm); [done|].
  apply handle_click_Inv; [done|]. exact (get_requester_email_truthy email_of uid e He).
Qed.

Lemma process_new_request_Inv (catalog : list App) (email_of slack_id_of : string -> option string)
    (post_dm : string -> string -> option string) (uid ch a rl : string) (w : World) :
  Inv w ->
  Inv (snd (process_new_request catalog email_of slack_id_of post_dm uid ch a rl w)) /\
  evolves w (snd (process_new_request catalog email_of slack_id_of post_dm uid ch a rl w)).
Proof.
  intros HI. unfold process_new_request.
  destruct (get_role_config catalog a rl) as [rc|].
  2:{ apply Inv_quiet; [done|]. unfold send_slack_message.
    apply quiet_bind; [by apply quiet_emit | intros; apply quiet_ret]. }
  destruct (required_approvals_for _ _ _ _) as [req ws].
  rewrite bind_log_warnings.
  destruct (Inv_quiet w _ HI (quiet_log_warnings ws w)) as [HI1 Hev1].
  apply (Inv_chain w (snd (log_warnings ws w))); [done|].
  set (w1 := snd (log_warnings ws w)) in *. clearbody w1.
  destruct (get_requester_email email_of uid) as [e|].
  2:{ apply Inv_quiet; [done|]. unfold send_slack_message.
      apply quiet_bind; [by apply quiet_emit | intros; apply quiet_ret]. }
  erewrite bind_ok; [|reflexivity]. cbv beta.
  erewrite bind_ok; [|reflexivity]. cbv beta.
  pose proof (Inv_fresh w1 HI1) as Hfresh.
  set (k := uuid_of (next_uuid w1)) in *.
  destruct (String.eqb _ "NONE").
  - erewrite bind_ok.
    2:{ rewrite update_request_status_eval. cbn [requests]. rewrite lookup_insert_eq. reflexivity. }
    erewrite bind_ok; [|reflexivity]. cbn [snd ret].
    cbn [requests tickets effects next_uuid clock]. rewrite insert_insert_eq.
    match goal with
    | |- Inv {| requests := <[_ := ?r']> _; effects := _ ++ ?es |} /\ _ =>
        eapply (Inv_update w1 _ k r' es); try reflexivity
    end.
    + exact HI1.
    + intros r0 Hr0. congruence.
    + apply ReqInv_set_status; [| reflexivity | by right].
      split; cbn; [by left | constructor | constructor | intros ? [] | done].
    + exists (next_uuid w1). cbn. split; [done | lia].
    + cbn. lia.
    + intros k'. unfold prov_count. cbn. rewrite (String.eqb_sym k k').
      by destruct (String.eqb k' k).
  - rewrite bind_then_ret_snd.
    match goal with
    | |- Inv (snd (?m ?W2)) /\ _ =>
        assert (H2 : Inv W2 /\ evolves w1 W2);
        [| destruct H2 as [HI2 Hev2]; apply (Inv_chain w1 W2); [done|];
           apply Inv_quiet; [done | apply quiet_send_approval_requests]]
    end.
    cbn [requests tickets effects next_uuid clock].
    match goal with
    | |- Inv {| requests := <[_ := ?r']> _ |} /\ _ =>
        eapply (Inv_update w1 _ k r' []); try reflexivity
    end.
    + exact HI1.
    + intros r0 Hr0. congruence.
    + split; cbn; [by left | constructor | constructor | intros ? [] | done].
    + exists (next_uuid w1). cbn. split; [done | lia].
    + cbn. lia.
    + cbn. by rewrite app_nil_r.
    + intros k'. by destruct (String.eqb k' k).
Qed.

Lemma step_Inv (catalog : list App) (email_of slack_id_of : string -> option string)
    (post_dm : string -> string -> option string) (w : World) (ev : Event) :
  Inv w ->
  Inv (step catalog email_of slack_id_of post_dm w ev) /\
  evolves w (step catalog email_of slack_id_of post_dm w ev).
Proof.
  intros HI. unfold step, lambda_handler.
  destruct ev as [uid ch a rl | uid act v url].
  - destruct (_ && _ && _ && _); [|by apply Inv_refl].
    rewrite bind_then_ret_snd. by apply process_new_request_Inv.
  - destruct (_ && _ && _ && _); [|by apply Inv_refl].
    rewrite bind_then_ret_snd. by apply handle_approval_response_Inv.
Qed.

Lemma Inv_init : Inv init.
Proof.
  split; cbn.
  - intros k r. by rewrite lookup_empty.
  - intros k r. by rewrite lookup_empty.
  - intros k. by rewrite lookup_empty.
  - unfold denied_count. by rewrite map_filter_empty, map_size_empty.
Qed.

Lemma run_Inv (catalog : list App) (email_of slack_id_of : string -> option string)
    (post_dm : string -> string -> option string) (evs : list Event) (w : World) :
  Inv w ->
  Inv (run catalog email_of slack_id_of post_dm w evs) /\
  evolves w (run catalog email_of slack_id_of post_dm w evs).
Proof.
  revert w. induction evs as [|ev evs IH]; intros w HI; cbn.
  - by apply Inv_refl.
  - destruct (step_Inv catalog email_of slack_id_of post_dm w ev HI) as [HI1 Hev1].
    destruct (IH _ HI1) as [HI2 Hev2]. split; [done | by eapply evolves_trans].
Qed.

Lemma reachable_Inv (catalog : list App) (email_of slack_id_of : string -> option string)
    (post_dm : string -> string -> option string) (evs : list Event) :
  Inv (run catalog email_of slack_id_of post_dm init evs).
Proof. apply run_Inv, Inv_init. Qed.

Lemma reachable_ReqInv (catalog : list App) (email_of slack_id_of : string -> option string)
    (post_dm : string -> string -> option string) (evs : list Event) (k : string) (r : Request) :
  requests (run catalog email_of slack_id_of post_dm init evs) !! k = Some r -> ReqInv r.
Proof. apply inv_items, reachable_Inv. Qed.

(** A response to a request that is no longer pending. *)
Lemma late_response_eval (catalog : list App) (email_of slack_id_of : string -> option string)
    (post_dm : string -> string -> option string) (w : World)
    (uid act v url rid mid : string) (r : Request) :
  decode_combined_value v = Some (rid, mid) ->
  requests w !! rid = Some r -> status r <> "pending" ->
  let w' := step catalog email_of slack_id_of post_dm w (ApprovalResponse uid act v url) in
  requests w' = requests w /\
  (effects w' = effects w \/
   effects w' = (effects w ++ [UpdatePrompt url (AlreadyStatus (status r))])%list).
Proof.
  intros Hv Hr Hnp w'. subst w'. unfold step, lambda_handler.
  destruct (_ && _ && _ && _); [|split; [done | by left]].
  rewrite bind_then_ret_snd, handle_approval_response_eval, Hv.
  destruct (get_requester_email email_of uid) as [e|]; [|split; [done | by left]].
  destruct (String.eqb mid ""); [split; [done | by left]|].
  rewrite handle_click_eval. cbn [requests]. rewrite Hr.
  destruct (String.eqb_spec (status r) "pending") as [Hp|_]; [contradiction|].
  cbn. split; [done | by right].
Qed.

(** ** C1: a recorded denial means the request is denied *)

(** C1: on every world reached from [init] by any sequence of events, a
    request with a non-empty denials list has status denied; in the 2-of-3
    ANY scenario where A approves, B denies and C approves, the request
    ends denied, with A's approval and B's denial recorded and C's vote
    refused. *)
Theorem denial_forces_denied :
  (forall (catalog : list App) (email_of slack_id_of : string -> option string)
          (post_dm : string -> string -> option string) (evs : list Event)
          (k : string) (r : Request),
     requests (run catalog email_of slack_id_of post_dm init evs) !! k = Some r ->
     denials_received r <> [] -> status r = "denied") /\
  option_map (fun r => (status r, approvals_received r, denials_received r))
    (requests (run sample_catalog sample_email_of sample_slack_id_of sample_post_dm
                 init scenario_a_b_c) !! "uuid-0")
  = Some ("denied", ["a@example.com"], ["b@example.com"]).
Proof.
  split.
  - intros catalog email_of slack_id_of post_dm evs k r Hr.
    apply ri_denied. exact (reachable_ReqInv catalog email_of slack_id_of post_dm evs k r Hr).
  - vm_compute. reflexivity.
Qed.

Lemma denial_forces_denied_witness :
  status (default (sample_request "pending" [] [])
            (requests (run sample_catalog sample_email_of sample_slack_id_of sample_post_dm
                         init scenario_a_b_c) !! "uuid-0")) = "denied".
Proof.
  apply (proj1 denial_forces_denied sample_catalog sample_email_of sample_slack_id_of
           sample_post_dm scenario_a_b_c "uuid-0").
  - vm_compute. reflexivity.
  - vm_compute. discriminate.
Defined.

(** With the denial arriving after the threshold is reached, the request
    is already approved when B answers: B's denial is refused and not
    recorded, and the request stays approved. *)
Lemma late_denial_refused :
  option_map (fun r => (status r, approvals_received r, denials_received r))
    (requests (run sample_catalog sample_email_of sample_slack_id_of sample_post_dm
                 init scenario_a_c_b) !! "uuid-0")
  = Some ("approved", ["a@example.com"; "c@example.com"], []).
Proof. vm_compute. reflexivity. Qed.

(** ** C7: approvals and denials *)

(** C7: on every world reached from [init] by any sequence of events,
    each request lists every approver at most once among its approvals,
    at most once among its denials, and never in both. *)
Theorem approvals_denials_disjoint (catalog : list App)
    (email_of slack_id_of : string -> option string)
    (post_dm : string -> string -> option string) (evs : list Event)
    (k : string) (r : Request) :
  requests (run catalog email_of slack_id_of post_dm init evs) !! k = Some r ->
  NoDup (approvals_received r) /\ NoDup (denials_received r) /\
  (forall e, In e (approvals_received r) -> ~ In e (denials_received r)).
Proof.
  intros Hr. pose proof (reachable_ReqInv catalog email_of slack_id_of post_dm evs k r Hr) as HR.
  split; [apply HR|]. split; [apply HR | apply HR].
Qed.

Lemma approvals_denials_disjoint_witness :
  NoDup (approvals_received
           (default (sample_request "pending" [] [])
              (requests (run sample_catalog sample_email_of sample_slack_id_of sample_post_dm
                           init scenario_a_c_b) !! "uuid-0"))).
Proof.
  apply (approvals_denials_disjoint sample_catalog sample_email_of sample_slack_id_of
           sample_post_dm scenario_a_c_b "uuid-0").
  vm_compute. reflexivity.
Defined.

(** ** C3: terminal requests *)

(** C3, with events processed one at a time from [init]: (1) a request
    that is no longer pending keeps its record, status, approvals and
    denials included, whatever events follow, so it leaves pending at
    most once; (2) a response to such a request changes no request and
    emits no provisioning trigger and no requester notice, at most the
    approver's prompt being updated to say the request is already
    approved or denied; (3) the log holds one provisioning trigger for
    each approved request and none for the others, and as many denial
    notices to requesters as there are denied requests. *)
Theorem terminal_requests_settled (catalog : list App)
    (email_of slack_id_of : string -> option string)
    (post_dm : string -> string -> option string) :
  (forall (evs1 evs2 : list Event) (k : string) (r : Request),
     requests (run catalog email_of slack_id_of post_dm init evs1) !! k = Some r ->
     status r <> "pending" ->
     requests (run catalog email_of slack_id_of post_dm
                 (run catalog email_of slack_id_of post_dm init evs1) evs2) !! k = Some r) /\
  (forall (evs : list Event) (uid act v url rid mid : string) (r : Request),
     decode_combined_value v = Some (rid, mid) ->
     requests (run catalog email_of slack_id_of post_dm init evs) !! rid = Some r ->
     status r <> "pending" ->
     let w := run catalog email_of slack_id_of post_dm init evs in
     let w' := step catalog email_of slack_id_of post_dm w (ApprovalResponse uid act v url) in
     requests w' = requests w /\
     (effects w' = effects w \/
      effects w' = (effects w ++ [UpdatePrompt url (AlreadyStatus (status r))])%list)) /\
  (forall (evs : list Event),
     let w := run catalog email_of slack_id_of post_dm init evs in
     (forall k, prov_count k (effects w) = approved_flag (requests w !! k)) /\
     denial_notices (effects w) = denied_count (requests w)).
Proof.
  split; [|split].
  - intros evs1 evs2 k r Hr Hnp.
    destruct (run_Inv catalog email_of slack_id_of post_dm evs2 _
                (reachable_Inv catalog email_of slack_id_of post_dm evs1)) as [_ (_ & _ & Hkeep)].
    exact (Hkeep k r Hr Hnp).
  - intros evs uid act v url rid mid r Hv Hr Hnp.
    exact (late_response_eval catalog email_of slack_id_of post_dm _ uid act v url rid mid r Hv Hr Hnp).
  - intros evs w. pose proof (reachable_Inv catalog email_of slack_id_of post_dm evs) as HI.
    split; [apply HI | apply HI].
Qed.

Lemma terminal_requests_settled_witness :
  requests (run sample_catalog sample_email_of sample_slack_id_of sample_post_dm
              (run sample_catalog sample_email_of sample_slack_id_of sample_post_dm
                 init scenario_a_b_c)
              [ApprovalResponse "UA" "approve_request" "uuid-0:uuid-1" "https://hooks/a"])
    !! "uuid-0"
  = requests (run sample_catalog sample_email_of sample_slack_id_of sample_post_dm
                init scenario_a_b_c) !! "uuid-0" /\
  requests (step sample_catalog sample_email_of sample_slack_id_of sample_post_dm
              (run sample_catalog sample_email_of sample_slack_id_of sample_post_dm
                 init scenario_a_b_c)
              (ApprovalResponse "UA" "approve_request" "uuid-0:uuid-1" "https://hooks/a"))
  = requests (run sample_catalog sample_email_of sample_slack_id_of sample_post_dm
                init scenario_a_b_c).
Proof.
  pose proof (terminal_requests_settled sample_catalog sample_email_of sample_slack_id_of
                sample_post_dm) as [H1 [H2 _]].
  set (r := default (sample_request "pending" [] [])
              (requests (run sample_catalog sample_email_of sample_slack_id_of sample_post_dm
                           init scenario_a_b_c) !! "uuid-0")).
  split.
  - rewrite (H1 scenario_a_b_c
               [ApprovalResponse "UA" "approve_request" "uuid-0:uuid-1" "https://hooks/a"]
               "uuid-0" r).
    + vm_compute. reflexivity.
    + vm_compute. reflexivity.
    + vm_compute. discriminate.
  - apply (proj1 (H2 scenario_a_b_c "UA" "approve_request" "uuid-0:uuid-1" "https://hooks/a"
                    "uuid-0" "uuid-1" r eq_refl
                    ltac:(vm_compute; reflexivity) ltac:(vm_compute; discriminate))).
Defined.

(* ================================================================== *)
(** * Further properties of the code *)

(** ** Strings and names *)

Lemma contains_colon_cons (c : ascii) (s : string) :
  contains_colon (String c s) = Ascii.eqb c ":" || contains_colon s.
Proof. reflexivity. Qed.

Lemma contains_colon_app (a b : string) :
  contains_colon (a +:+ b) = contains_colon a || contains_colon b.
Proof.
  induction a as [|c a IH]; [done|]. rewrite string_app_cons, !contains_colon_cons, IH.
  by rewrite orb_assoc.
Qed.

Lemma lower_char_idem (c : ascii) : lower_char (lower_char c) = lower_char c.
Proof.
  unfold lower_char. destruct ((65 <=? nat_of_ascii c)%nat && (nat_of_ascii c <=? 90)%nat) eqn:H.
  - apply andb_true_iff in H as [H1 H2]. apply Nat.leb_le in H1, H2.
    rewrite nat_ascii_embedding by lia.
    replace ((65 <=? nat_of_ascii c + 32)%nat && (nat_of_ascii c + 32 <=? 90)%nat) with false.
    + reflexivity.
    + symmetry. apply andb_false_iff. right. apply Nat.leb_gt. lia.
  - by rewrite H.
Qed.

Lemma lower_idem (s : string) : lower (lower s) = lower s.
Proof. induction s as [|c s IH]; [done|]. cbn. by rewrite lower_char_idem, IH. Qed.

Lemma find_hd_filter {A} (f : A -> bool) (l : list A) :
  find f l = hd_error (List.filter f l).
Proof. induction l as [|x l IH]; [done|]. cbn. by destruct (f x). Qed.

Lemma split_colon_acc_nonempty (s cur : string) : split_colon_acc cur s <> [].
Proof.
  revert cur. induction s as [|c s IH]; intros cur; cbn; [done|].
  destruct (Ascii.eqb c ":"); [done | apply IH].
Qed.

Lemma split_colon_acc_one (s cur a : string) :
  contains_colon cur = false -> split_colon_acc cur s = [a] ->
  cur +:+ s = a /\ contains_colon a = false.
Proof.
  revert cur. induction s as [|c s IH]; intros cur Hcur Hs; cbn in Hs.
  - injection Hs as <-. by rewrite string_app_nil_r.
  - destruct (Ascii.eqb c ":") eqn:Hc.
    + injection Hs as _ Hs. exfalso. exact (split_colon_acc_nonempty s "" Hs).
    + destruct (IH (cur +:+ String c "")) as [Heq Ha]; [|exact Hs|].
      * by rewrite contains_colon_app, Hcur, contains_colon_cons, Hc.
      * rewrite string_app_assoc in Heq. split; [exact Heq | exact Ha].
Qed.

Lemma split_colon_acc_two (s cur a b : string) :
  contains_colon cur = false -> split_colon_acc cur s = [a; b] ->
  cur +:+ s = a +:+ ":" +:+ b /\ contains_colon a = false /\ contains_colon b = false.
Proof.
  revert cur. induction s as [|c s IH]; intros cur Hcur Hs; cbn in Hs.
  - discriminate.
  - destruct (Ascii.eqb c ":") eqn:Hc.
    + injection Hs as <- Hs. destruct (split_colon_acc_one s "" b eq_refl Hs) as [Hb Hbf].
      apply Ascii.eqb_eq in Hc. subst c. rewrite string_app_nil_l in Hb. subst b.
      split; [reflexivity|]. by split.
    + destruct (IH (cur +:+ String c "")) as [Heq Hab]; [|exact Hs|].
      * by rewrite contains_colon_app, Hcur, contains_colon_cons, Hc.
      * rewrite string_app_assoc in Heq. split; [exact Heq | exact Hab].
Qed.

Lemma pretty_N_char_not_colon (x : N) : Ascii.eqb (pretty_N_char x) ":" = false.
Proof. unfold pretty_N_char. by repeat case_match. Qed.

Lemma pretty_N_go_colon_free (x : N) (s : string) :
  contains_colon s = false -> contains_colon (pretty_N_go x s) = false.
Proof.
  revert s. induction x as [x IH] using (well_founded_induction N.lt_wf_0); intros s Hs.
  destruct (decide (0 < x)%N) as [Hx|Hx].
  - rewrite pretty_N_go_step by exact Hx. apply IH.
    + apply N.div_lt; lia.
    + by rewrite contains_colon_cons, pretty_N_char_not_colon.
  - replace x with 0%N by lia. by rewrite pretty_N_go_0.
Qed.

Lemma uuid_of_colon_free (n : nat) : contains_colon (uuid_of n) = false.
Proof.
  unfold uuid_of. rewrite contains_colon_app. cbn [contains_colon list_ascii_of_string existsb].
  unfold pretty, pretty_nat, pretty, pretty_N.
  destruct (decide (N.of_nat n = 0%N)); [reflexivity|]. by apply pretty_N_go_colon_free.
Qed.

(** ** Catalog lookup *)

(** [get_role_config] returns the first role, in catalog order, whose name
    matches [role_name] among the roles of the applications whose name
    matches [app_name], both compared after [lower()]; an application that
    matches without the role does not stop the search. *)
Theorem get_role_config_first_match (catalog : list App) (app_name role_name : string) :
  get_role_config catalog app_name role_name =
  hd_error (concat (map (fun a => List.filter
                                    (fun r => String.eqb (lower (cat_role_name r)) (lower role_name))
                                    (app_roles a))
                        (List.filter (fun a => String.eqb (lower (cat_app_name a)) (lower app_name))
                           catalog))).
Proof.
  unfold get_role_config. induction catalog as [|a rest IH]; [done|]. cbn.
  destruct (String.eqb (lower (cat_app_name a)) (lower app_name)); [|exact IH].
  cbn. rewrite find_hd_filter.
  destruct (List.filter _ (app_roles a)) as [|r rs]; cbn; [exact IH | reflexivity].
Qed.

(** For ASCII names and an ASCII catalog, the lookup ignores the case of
    both names: asking with the lower-cased names finds the same role. *)
Theorem get_role_config_case_insensitive (catalog : list App) (app_name role_name : string) :
  catalog_ascii catalog = true -> is_ascii app_name = true -> is_ascii role_name = true ->
  get_role_config catalog app_name role_name =
  get_role_config catalog (lower app_name) (lower role_name).
Proof. intros _ _ _. rewrite !get_role_config_first_match. by rewrite !lower_idem. Qed.

Lemma get_role_config_case_insensitive_witness :
  get_role_config sample_catalog "AWS" "Developer" =
  get_role_config sample_catalog "aws" "developer".
Proof.
  exact (get_role_config_case_insensitive sample_catalog "AWS" "Developer"
           eq_refl eq_refl eq_refl).
Defined.

(** ** Required approvals *)

(** Every approval type but [NONE] requires at least one approval, [NONE]
    requires none and logs nothing, and a warning is logged exactly for the
    types other than [NONE], [MANUAL] and [ACCOUNT_ID]. *)
Theorem required_approvals_at_least_one :
  (forall (approval_type logic : string) (approvers : list string) (threshold : Z),
     approval_type <> "NONE" ->
     (1 <= fst (required_approvals_for approval_type logic approvers threshold))%Z) /\
  (forall (logic : string) (approvers : list string) (threshold : Z),
     required_approvals_for "NONE" logic approvers threshold = (0%Z, [])) /\
  (forall (approval_type logic : string) (approvers : list string) (threshold : Z),
     snd (required_approvals_for approval_type logic approvers threshold) = [] <->
     approval_type = "NONE" \/ approval_type = "MANUAL" \/ approval_type = "ACCOUNT_ID").
Proof.
  assert (Hlen : forall l : list string,
            (1 <= match l with [] => 1 | _ => Z.of_nat (length l) end)%Z).
  { intros [|x l]; cbn; lia. }
  assert (Hthr : forall t, (1 <= threshold_or_one t)%Z).
  { intros t. unfold threshold_or_one. destruct (Z.gtb_spec t 0); lia. }
  split; [|split].
  - intros atype logic approvers threshold Hne. unfold required_approvals_for.
    destruct (String.eqb_spec atype "NONE"); [contradiction|].
    destruct (String.eqb atype "MANAGER"); [cbn; lia|].
    destruct (String.eqb atype "BOTH"); [cbn; destruct (String.eqb logic "ALL"); auto|].
    destruct (_ || _); cbn; [destruct (String.eqb logic "ALL"); auto | auto].
  - reflexivity.
  - intros atype logic approvers threshold. unfold required_approvals_for.
    destruct (String.eqb_spec atype "NONE") as [->|H1]; [split; [by left | done]|].
    destruct (String.eqb_spec atype "MANAGER") as [->|H2]; [cbn; split; [discriminate | intuition congruence]|].
    destruct (String.eqb_spec atype "BOTH") as [->|H3]; [cbn; split; [discriminate | intuition congruence]|].
    destruct (String.eqb_spec atype "MANUAL") as [->|H4]; [cbn; split; [by right; left | done]|].
    destruct (String.eqb_spec atype "ACCOUNT_ID") as [->|H5]; [cbn; split; [by right; right | done]|].
    cbn. split; [discriminate | intuition congruence].
Qed.

Lemma required_approvals_at_least_one_witness :
  (1 <= fst (required_approvals_for "MANUAL" "ANY" ["a@example.com"] 0))%Z /\
  snd (required_approvals_for "MANUAL" "ANY" ["a@example.com"] 0) = [].
Proof.
  split.
  - apply (proj1 required_approvals_at_least_one). discriminate.
  - apply (proj2 (proj2 required_approvals_at_least_one)). by right; left.
Defined.

(** ** The button token *)

(** Every token that [handle_approval_response] accepts is of the form
    [request_id:approval_message_id] with two colon-free parts: with C10,
    exactly the tokens [send_approval_requests] builds from colon-free ids. *)
Theorem decode_combined_value_sound (v request_id approval_message_id : string) :
  decode_combined_value v = Some (request_id, approval_message_id) ->
  v = encode_combined_value request_id approval_message_id /\
  contains_colon request_id = false /\ contains_colon approval_message_id = false.
Proof.
  unfold decode_combined_value, split_colon, encode_combined_value.
  destruct (split_colon_acc "" v) as [|a [|b [|c l]]] eqn:Hs; try discriminate.
  intros [= <- <-]. destruct (split_colon_acc_two v "" a b eq_refl Hs) as (Hv & Ha & Hb).
  rewrite string_app_nil_l in Hv. by split.
Qed.

Lemma decode_combined_value_sound_witness :
  "uuid-0:uuid-1" = encode_combined_value "uuid-0" "uuid-1".
Proof. apply (decode_combined_value_sound "uuid-0:uuid-1" "uuid-0" "uuid-1"). reflexivity. Defined.

(** ** Outcomes of an invocation *)

(** A rejected event changes nothing: with a missing field the handler
    answers 400, and an [approval_response] whose token does not split into
    two parts raises [ValueError], both before any table write or message. *)
Theorem lambda_handler_rejects_unchanged (catalog : list App)
    (email_of slack_id_of : string -> option string)
    (post_dm : string -> string -> option string) (w : World) :
  (forall ev,
     match ev with
     | NewRequest uid ch a rl => uid = "" \/ ch = "" \/ a = "" \/ rl = ""
     | ApprovalResponse uid act v url => uid = "" \/ act = "" \/ v = "" \/ url = ""
     end ->
     lambda_handler catalog email_of slack_id_of post_dm ev w = (Ok 400%Z, w)) /\
  (forall uid act v url,
     decode_combined_value v = None ->
     lambda_handler catalog email_of slack_id_of post_dm (ApprovalResponse uid act v url) w
     = if truthy (Some uid) && truthy (Some act) && truthy (Some v) && truthy (Some url)
       then (Raise ValueError, w) else (Ok 400%Z, w)).
Proof.
  split.
  - intros ev H. destruct ev as [uid ch a rl | uid act v url]; unfold lambda_handler.
    + replace (_ && _ && _ && _) with false; [reflexivity|].
      destruct H as [H|[H|[H|H]]]; subst; cbn; by rewrite ?andb_false_r.
    + replace (_ && _ && _ && _) with false; [reflexivity|].
      destruct H as [H|[H|[H|H]]]; subst; cbn; by rewrite ?andb_false_r.
  - intros uid act v url Hv. unfold lambda_handler.
    destruct (_ && _ && _ && _); [|reflexivity].
    unfold bind. rewrite handle_approval_response_eval, Hv. reflexivity.
Qed.

Lemma lambda_handler_rejects_unchanged_witness :
  lambda_handler sample_catalog sample_email_of sample_slack_id_of sample_post_dm
    (ApprovalResponse "UA" "approve_request" "uuid-0" "https://hooks/a") init
  = (Raise ValueError, init) /\
  lambda_handler sample_catalog sample_email_of sample_slack_id_of sample_post_dm
    (NewRequest "U1" "" "aws" "developer") init = (Ok 400%Z, init).
Proof.
  split.
  - apply (proj2 (lambda_handler_rejects_unchanged sample_catalog sample_email_of
                    sample_slack_id_of sample_post_dm init) "UA" "approve_request" "uuid-0"
             "https://hooks/a"). reflexivity.
  - apply (proj1 (lambda_handler_rejects_unchanged sample_catalog sample_email_of
                    sample_slack_id_of sample_post_dm init) (NewRequest "U1" "" "aws" "developer")).
    cbn. by right; left.
Defined.

(** A click by a user whose Slack profile has no email is answered 200 and
    otherwise ignored: no tracking item is marked, no request changes,
    nothing is sent. *)
Theorem approval_response_unknown_clicker (catalog : list App)
    (email_of slack_id_of : string -> option string)
    (post_dm : string -> string -> option string) (w : World)
    (uid act v url rid mid : string) :
  uid <> "" -> act <> "" -> url <> "" ->
  decode_combined_value v = Some (rid, mid) ->
  truthy (email_of uid) = false ->
  lambda_handler catalog email_of slack_id_of post_dm (ApprovalResponse uid act v url) w
  = (Ok 200%Z, w).
Proof.
  intros Hu Ha Hurl Hv He. unfold lambda_handler.
  assert (Hvne : v <> "") by (intros ->; discriminate).
  cbn [truthy]. rewrite <- !String.eqb_neq in Hu, Ha, Hurl, Hvne.
  rewrite Hu, Ha, Hurl, Hvne. cbn.
  unfold bind. rewrite handle_approval_response_eval, Hv.
  unfold get_requester_email. rewrite He. reflexivity.
Qed.

Lemma approval_response_unknown_clicker_witness :
  lambda_handler sample_catalog sample_email_of sample_slack_id_of sample_post_dm
    (ApprovalResponse "UX" "approve_request" "uuid-0:uuid-1" "https://hooks/x") init
  = (Ok 200%Z, init).
Proof.
  apply (approval_response_unknown_clicker sample_catalog sample_email_of sample_slack_id_of
           sample_post_dm init "UX" "approve_request" "uuid-0:uuid-1" "https://hooks/x"
           "uuid-0" "uuid-1"); try discriminate; reflexivity.
Defined.

(** ** What one invocation writes *)

Lemma after_vote_other (uid rid : string) (r : Request) (w : World) (k : string) :
  k <> rid -> requests (snd (after_vote uid rid r w)) !! k = requests w !! k.
Proof.
  intros Hk. rewrite after_vote_eval.
  destruct (requests w !! rid); [destruct (String.eqb _ _)|]; cbn; [|done|done].
  by rewrite lookup_insert_ne by congruence.
Qed.

Lemma handle_click_other (uid act rid e url : string) (w : World) (k : string) :
  k <> rid -> requests (snd (handle_click uid act rid e url w)) !! k = requests w !! k.
Proof.
  intros Hk. rewrite handle_click_eval.
  destruct (requests w !! rid) as [r|]; [|done].
  destruct (negb _); [done|]. destruct (_ || _); [done|].
  destruct (String.eqb act "approve_request").
  - rewrite after_vote_other by exact Hk. cbn. by rewrite lookup_insert_ne by congruence.
  - destruct (String.eqb act "deny_request").
    + cbn. by rewrite lookup_insert_ne by congruence.
    + by apply after_vote_other.
Qed.

(** An [approval_response] changes no request but the one its token names. *)
Theorem approval_response_touches_one_request (catalog : list App)
    (email_of slack_id_of : string -> option string)
    (post_dm : string -> string -> option string) (w : World)
    (uid act v url k : string) :
  (forall rid mid, decode_combined_value v = Some (rid, mid) -> k <> rid) ->
  requests (step catalog email_of slack_id_of post_dm w (ApprovalResponse uid act v url)) !! k
  = requests w !! k.
Proof.
  intros Hk. unfold step, lambda_handler.
  destruct (_ && _ && _ && _); [|done].
  rewrite bind_then_ret_snd, handle_approval_response_eval.
  destruct (decode_combined_value v) as [[rid mid]|] eqn:Hv; [|done].
  destruct (get_requester_email email_of uid) as [e|]; [|done].
  destruct (String.eqb mid ""); [done|].
  rewrite handle_click_other by exact (Hk rid mid eq_refl). done.
Qed.

Lemma approval_response_touches_one_request_witness :
  requests (step sample_catalog sample_email_of sample_slack_id_of sample_post_dm
              (world_with (sample_request "pending" [] []))
              (ApprovalResponse "UA" "approve_request" "uuid-7:uuid-1" "https://hooks/a"))
    !! "uuid-0"
  = requests (world_with (sample_request "pending" [] [])) !! "uuid-0".
Proof.
  apply approval_response_touches_one_request.
  intros rid mid Hv. vm_compute in Hv. injection Hv as <- _. discriminate.
Defined.

Lemma log_warnings_world (ws : list Warning) (w : World) :
  snd (log_warnings ws w) =
  {| requests := requests w; tickets := tickets w;
     effects := (effects w ++ map LogWarning ws)%list;
     next_uuid := next_uuid w; clock := clock w |}.
Proof.
  revert w. induction ws as [|x ws IH]; intros w; cbn.
  - rewrite app_nil_r. by destruct w.
  - rewrite IH. cbn. by rewrite <- app_assoc.
Qed.

(** ** C5: the count stored with a new request *)

(** What [process_new_request] stores for a role whose config is found, when
    the requester's email is found: under the fresh id, a request whose
    [required_approvals] is the count [required_approvals_for] gives for the
    config's type (default [MANUAL]), logic (default [ANY]), approver list
    (default empty) and threshold (default 1), after the warnings it returns
    are logged. *)
Lemma process_new_request_required (catalog : list App)
    (email_of slack_id_of : string -> option string)
    (post_dm : string -> string -> option string)
    (uid channel app_nm role_nm : string) (w : World) (rc : Role) (e : string) :
  get_role_config catalog app_nm role_nm = Some rc ->
  get_requester_email email_of uid = Some e ->
  let ap := role_approval rc in
  let '(req, ws) := required_approvals_for (default "MANUAL" (ap_type ap))
                      (default "ANY" (ap_logic ap)) (default [] (ap_approver_emails ap))
                      (default 1%Z (ap_threshold ap)) in
  let w' := snd (process_new_request catalog email_of slack_id_of post_dm
                   uid channel app_nm role_nm w) in
  exists r es, requests w' !! uuid_of (next_uuid w) = Some r /\
    required_approvals r = req /\
    effects w' = (effects w ++ map LogWarning ws ++ es)%list.
Proof.
  intros Hrc He ap. unfold process_new_request. rewrite Hrc. cbn zeta.
  fold ap.
  destruct (required_approvals_for _ _ _ _) as [req ws].
  rewrite bind_log_warnings, log_warnings_world, He.
  erewrite bind_ok; [|reflexivity]. cbv beta.
  erewrite bind_ok; [|reflexivity]. cbv beta.
  destruct (String.eqb _ "NONE").
  - erewrite bind_ok.
    2:{ rewrite update_request_status_eval. cbn [requests]. rewrite lookup_insert_eq. reflexivity. }
    erewrite bind_ok; [|reflexivity]. cbn.
    rewrite lookup_insert_eq. eexists _, _. split; [reflexivity|]. split; [reflexivity|].
    by rewrite <- app_assoc.
  - rewrite bind_then_ret_snd.
    match goal with
    | |- context [send_approval_requests ?s ?p ?r ?l ?c ?W2] =>
        destruct (quiet_send_approval_requests s p r l c W2) as (Hr & _ & es & Hes & _)
    end.
    rewrite Hr, Hes. cbn. rewrite lookup_insert_eq.
    eexists _, _. split; [reflexivity|]. split; [reflexivity|].
    by rewrite <- app_assoc.
Qed.

(** C5 (amended): for [MANUAL] or [ACCOUNT_ID], logic [ALL] requires the
    length of the approver list, or 1 when it is empty, and any other logic
    requires [threshold] if it is positive, else 1, with no warning; a type
    other than [NONE], [MANAGER], [BOTH], [MANUAL] and [ACCOUNT_ID] requires
    [threshold] if it is positive, else 1, whatever the logic, and logs an
    unknown-type warning.  [process_new_request] stores this count with the
    new request, reading an absent threshold as 1, and logs the warning: so
    a role of unknown type with no threshold gets a request that requires
    one approval. *)
Theorem required_approvals_for_designated_and_unknown :
  (forall (t logic : string) (approvers : list string) (threshold : Z),
     (t = "MANUAL" \/ t = "ACCOUNT_ID") ->
     required_approvals_for t logic approvers threshold =
       ((if String.eqb logic "ALL" then
           (if Nat.eqb (length approvers) 0 then 1%Z else Z.of_nat (length approvers))
         else if (threshold >? 0)%Z then threshold else 1%Z), [])) /\
  (forall (t logic : string) (approvers : list string) (threshold : Z),
     t <> "NONE" -> t <> "MANAGER" -> t <> "BOTH" -> t <> "MANUAL" -> t <> "ACCOUNT_ID" ->
     required_approvals_for t logic approvers threshold =
       ((if (threshold >? 0)%Z then threshold else 1%Z), [UnknownApprovalType t])) /\
  (forall (catalog : list App) (email_of slack_id_of : string -> option string)
          (post_dm : string -> string -> option string)
          (uid channel app_nm role_nm : string) (w : World) (rc : Role) (e : string),
     get_role_config catalog app_nm role_nm = Some rc ->
     get_requester_email email_of uid = Some e ->
     let ap := role_approval rc in
     let '(req, ws) := required_approvals_for (default "MANUAL" (ap_type ap))
                         (default "ANY" (ap_logic ap)) (default [] (ap_approver_emails ap))
                         (default 1%Z (ap_threshold ap)) in
     let w' := snd (process_new_request catalog email_of slack_id_of post_dm
                      uid channel app_nm role_nm w) in
     exists r es, requests w' !! uuid_of (next_uuid w) = Some r /\
       required_approvals r = req /\
       effects w' = (effects w ++ map LogWarning ws ++ es)%list) /\
  (forall (catalog : list App) (email_of slack_id_of : string -> option string)
          (post_dm : string -> string -> option string)
          (uid channel app_nm role_nm : string) (w : World) (rc : Role) (e t : string),
     get_role_config catalog app_nm role_nm = Some rc ->
     get_requester_email email_of uid = Some e ->
     ap_type (role_approval rc) = Some t ->
     t <> "NONE" -> t <> "MANAGER" -> t <> "BOTH" -> t <> "MANUAL" -> t <> "ACCOUNT_ID" ->
     ap_threshold (role_approval rc) = None ->
     let w' := snd (process_new_request catalog email_of slack_id_of post_dm
                      uid channel app_nm role_nm w) in
     exists r, requests w' !! uuid_of (next_uuid w) = Some r /\
       required_approvals r = 1%Z /\ In (LogWarning (UnknownApprovalType t)) (effects w')).
Proof.
  assert (Hunk : forall (t logic : string) (approvers : list string) (threshold : Z),
     t <> "NONE" -> t <> "MANAGER" -> t <> "BOTH" -> t <> "MANUAL" -> t <> "ACCOUNT_ID" ->
     required_approvals_for t logic approvers threshold =
       ((if (threshold >? 0)%Z then threshold else 1%Z), [UnknownApprovalType t])).
  { intros t logic approvers threshold H1 H2 H3 H4 H5.
    unfold required_approvals_for, threshold_or_one.
    apply String.eqb_neq in H1, H2, H3, H4, H5.
    by rewrite H1, H2, H3, H4, H5. }
  split; [|split; [exact Hunk | split]].
  - intros t logic approvers threshold [-> | ->];
      unfold required_approvals_for, threshold_or_one; simpl;
      destruct (String.eqb logic "ALL"), approvers; reflexivity.
  - exact process_new_request_required.
  - intros catalog email_of slack_id_of post_dm uid channel app_nm role_nm w rc e t
      Hrc He Ht H1 H2 H3 H4 H5 Hth w'.
    pose proof (process_new_request_required catalog email_of slack_id_of post_dm
                  uid channel app_nm role_nm w rc e Hrc He) as H.
    cbv zeta in H. rewrite Ht, Hth in H. cbn [default] in H.
    rewrite (Hunk t _ _ 1%Z H1 H2 H3 H4 H5) in H. cbn in H.
    destruct H as (r & es & Hr & Hreq & Heff).
    exists r. split; [exact Hr|]. split; [exact Hreq|].
    subst w'. rewrite Heff. apply in_or_app. right. left. reflexivity.
Qed.

Lemma required_approvals_for_designated_and_unknown_witness :
  required_approvals_for "ACCOUNT_ID" "ALL" [] 5%Z = (1%Z, []) /\
  required_approvals_for "JIT" "ALL" ["a"; "b"] 3%Z = (3%Z, [UnknownApprovalType "JIT"]) /\
  exists r, requests (snd (process_new_request jit_catalog sample_email_of sample_slack_id_of
                             sample_post_dm "U1" "D1" "aws" "oncall" init))
              !! uuid_of 0 = Some r /\ required_approvals r = 1%Z.
Proof.
  split; [|split].
  - apply (proj1 required_approvals_for_designated_and_unknown
             "ACCOUNT_ID" "ALL" [] 5%Z). right. reflexivity.
  - apply (proj1 (proj2 required_approvals_for_designated_and_unknown)
             "JIT" "ALL" ["a"; "b"] 3%Z); discriminate.
  - destruct (proj2 (proj2 (proj2 required_approvals_for_designated_and_unknown))
                jit_catalog sample_email_of sample_slack_id_of sample_post_dm
                "U1" "D1" "aws" "oncall" init jit_role "req@example.com" "JIT"
                eq_refl eq_refl eq_refl ltac:(discriminate) ltac:(discriminate)
                ltac:(discriminate) ltac:(discriminate) ltac:(discriminate) eq_refl)
      as (r & Hr & Hreq & _).
    exists r. split; [exact Hr | exact Hreq].
Defined.

(** A [new_request] changes no request but the one stored under the id it
    draws, [uuid_of (next_uuid w)]. *)
Theorem new_request_touches_one_request (catalog : list App)
    (email_of slack_id_of : string -> option string)
    (post_dm : string -> string -> option string) (w : World)
    (uid ch a rl k : string) :
  k <> uuid_of (next_uuid w) ->
  requests (step catalog email_of slack_id_of post_dm w (NewRequest uid ch a rl)) !! k
  = requests w !! k.
Proof.
  intros Hk. unfold step, lambda_handler.
  destruct (_ && _ && _ && _); [|done].
  rewrite bind_then_ret_snd. unfold process_new_request.
  destruct (get_role_config catalog a rl) as [rc|]; [|done].
  destruct (required_approvals_for _ _ _ _) as [req ws].
  rewrite bind_log_warnings, log_warnings_world.
  destruct (get_requester_email email_of uid) as [e|]; [|done].
  erewrite bind_ok; [|reflexivity]. cbv beta.
  erewrite bind_ok; [|reflexivity]. cbv beta.
  destruct (String.eqb _ "NONE").
  - erewrite bind_ok.
    2:{ rewrite update_request_status_eval. cbn [requests]. rewrite lookup_insert_eq. reflexivity. }
    erewrite bind_ok; [|reflexivity]. cbn.
    by rewrite !lookup_insert_ne by congruence.
  - rewrite bind_then_ret_snd.
    match goal with
    | |- requests (snd (send_approval_requests ?s ?p ?r ?l ?c ?W2)) !! _ = _ =>
        destruct (quiet_send_approval_requests s p r l c W2) as [Hr _]
    end.
    rewrite Hr. cbn. by rewrite lookup_insert_ne by congruence.
Qed.

Lemma new_request_touches_one_request_witness :
  requests (step sample_catalog sample_email_of sample_slack_id_of sample_post_dm
              (world_with (sample_request "pending" [] []))
              (NewRequest "U1" "D1" "aws" "readonly")) !! "uuid-0"
  = requests (world_with (sample_request "pending" [] [])) !! "uuid-0".
Proof. apply new_request_touches_one_request. vm_compute. discriminate. Defined.

(** A response whose action is neither [approve_request] nor
    [deny_request] records no vote: the approvals and denials of every
    request are as before (only the threshold check runs). *)
Theorem unknown_action_records_no_vote (catalog : list App)
    (email_of slack_id_of : string -> option string)
    (post_dm : string -> string -> option string) (w : World)
    (uid act v url k : string) :
  act <> "approve_request" -> act <> "deny_request" ->
  fmap (fun r => (approvals_received r, denials_received r))
    (requests (step catalog email_of slack_id_of post_dm w (ApprovalResponse uid act v url)) !! k)
  = fmap (fun r => (approvals_received r, denials_received r)) (requests w !! k).
Proof.
  intros Ha Hd. unfold step, lambda_handler.
  destruct (_ && _ && _ && _); [|done].
  rewrite bind_then_ret_snd, handle_approval_response_eval.
  destruct (decode_combined_value v) as [[rid mid]|]; [|done].
  destruct (get_requester_email email_of uid) as [e|]; [|done].
  destruct (String.eqb mid ""); [done|].
  rewrite handle_click_eval. cbn [requests].
  destruct (requests w !! rid) as [r|] eqn:Hr; [|done].
  destruct (negb _); [done|]. destruct (_ || _); [done|].
  apply String.eqb_neq in Ha, Hd. rewrite Ha, Hd.
  rewrite after_vote_eval. cbn [requests]. rewrite Hr. destruct (String.eqb _ "approved"); [|done]. cbn.
  destruct (String.eqb_spec k rid) as [->|Hne].
  - by rewrite lookup_insert_eq, Hr.
  - by rewrite lookup_insert_ne by congruence.
Qed.

Lemma unknown_action_records_no_vote_witness :
  fmap (fun r => (approvals_received r, denials_received r))
    (requests (step sample_catalog sample_email_of sample_slack_id_of sample_post_dm
                 (world_with (sample_request "pending" ["a@example.com"] []))
                 (ApprovalResponse "UB" "comment" "uuid-0:uuid-2" "https://hooks/b")) !! "uuid-0")
  = Some (["a@example.com"], []).
Proof.
  rewrite (unknown_action_records_no_vote sample_catalog sample_email_of sample_slack_id_of
             sample_post_dm _ "UB" "comment" "uuid-0:uuid-2" "https://hooks/b" "uuid-0");
    [reflexivity | discriminate | discriminate].
Defined.

(** [update_request_status] never creates or removes an item: it returns
    [True] exactly when the id is stored, and writes no other item. *)
Theorem update_request_status_existing_only (rid st : string) (em act : option string)
    (w : World) :
  let w' := snd (update_request_status rid st em act w) in
  (fst (update_request_status rid st em act w) = Ok true <-> is_Some (requests w !! rid)) /\
  (forall k, is_Some (requests w' !! k) <-> is_Some (requests w !! k)) /\
  (forall k, k <> rid -> requests w' !! k = requests w !! k).
Proof.
  cbv zeta. rewrite update_request_status_eval.
  destruct (requests w !! rid) as [r|] eqn:Hr; cbn.
  - split; [split; [intros _; by eexists | done]|]. split.
    + intros k. destruct (String.eqb_spec k rid) as [->|Hne].
      * rewrite lookup_insert_eq, Hr. split; intros _; by eexists.
      * by rewrite lookup_insert_ne by congruence.
    + intros k Hne. by rewrite lookup_insert_ne by congruence.
  - split; [split; [discriminate | intros [? ?]; discriminate]|]. by split.
Qed.

(** A click is written to the tracking table before the request is read:
    for a token naming no stored request, with a non-empty message id, the
    tracking item of its message id is upserted with status [clicked] and the clicker (a bare item with
    no request id when none existed), no request changes, and the prompt
    says the request no longer exists. *)
Theorem click_recorded_for_missing_request (catalog : list App)
    (email_of slack_id_of : string -> option string)
    (post_dm : string -> string -> option string) (w : World)
    (uid act v url rid mid : string) :
  uid <> "" -> act <> "" -> url <> "" ->
  decode_combined_value v = Some (rid, mid) -> mid <> "" ->
  truthy (email_of uid) = true ->
  requests w !! rid = None ->
  let w' := step catalog email_of slack_id_of post_dm w (ApprovalResponse uid act v url) in
  requests w' = requests w /\
  tickets w' = <[mid := click_ticket (tickets w !! mid) uid]> (tickets w) /\
  effects w' = (effects w ++ [UpdatePrompt url RequestGone])%list /\
  (tickets w !! mid = None ->
   tickets w' !! mid = Some {| tk_request_id := None; tk_approver_email := None;
                               tk_approver_slack_id := None; tk_message_ts := None;
                               tk_status := Some "clicked"; tk_handled_by := Some uid;
                               tk_created_at := None |}).
Proof.
  intros Hu Ha Hurl Hv Hmid He Hr w'. subst w'. unfold step, lambda_handler.
  assert (Hvne : v <> "") by (intros ->; discriminate).
  cbn [truthy]. rewrite <- !String.eqb_neq in Hu, Ha, Hurl, Hvne.
  rewrite Hu, Ha, Hurl, Hvne. cbn [negb andb].
  rewrite bind_then_ret_snd, handle_approval_response_eval, Hv.
  unfold get_requester_email. rewrite He.
  destruct (email_of uid) as [e|]; [|discriminate He].
  apply String.eqb_neq in Hmid. rewrite Hmid.
  rewrite handle_click_eval. cbn [requests]. rewrite Hr.
  cbn. split; [done|]. split; [done|]. split; [done|].
  intros Hm. by rewrite lookup_insert_eq, Hm.
Qed.

Lemma click_recorded_for_missing_request_witness :
  requests (step sample_catalog sample_email_of sample_slack_id_of sample_post_dm init
              (ApprovalResponse "UA" "approve_request" "uuid-5:uuid-6" "https://hooks/a"))
  = requests init.
Proof.
  apply (click_recorded_for_missing_request sample_catalog sample_email_of sample_slack_id_of
           sample_post_dm init "UA" "approve_request" "uuid-5:uuid-6" "https://hooks/a"
           "uuid-5" "uuid-6"); try discriminate; reflexivity.
Defined.

(** ** Approval DMs *)

Lemma if_truthy_Some (o : option string) (x : string) :
  if_truthy o = Some x -> truthy o = true /\ o = Some x.
Proof. unfold if_truthy. destruct (truthy o); [by intros -> | discriminate]. Qed.

Lemma if_truthy_None (o : option string) : if_truthy o = None -> truthy o = false.
Proof.
  unfold if_truthy. destruct (truthy o) eqn:Ht; [|done].
  intros Ho. rewrite Ho in Ht. discriminate.
Qed.




Lemma decode_encode (a b : string) :
  contains_colon a = false -> contains_colon b = false ->
  decode_combined_value (encode_combined_value a b) = Some (a, b).
Proof.
  intros Ha Hb. unfold decode_combined_value, encode_combined_value, split_colon.
  change (":" +:+ b) with (String ":" b).
  rewrite split_colon_acc_sep by exact Ha.
  by rewrite split_colon_acc_free by exact Hb.
Qed.

Lemma loop_tokens (slack_id_of : string -> option string)
    (post_dm : string -> string -> option string) (rid : string) (approvers : list string) :
  forall (sent : nat) (w : World),
  let w' := snd (send_approval_loop slack_id_of post_dm rid approvers sent w) in
  (next_uuid w <= next_uuid w')%nat /\
  (forall k, (forall n, k = uuid_of n -> (n < next_uuid w)%nat) -> tickets w' !! k = tickets w !! k) /\
  exists es, effects w' = (effects w ++ es)%list /\
    forall sid tok, In (ApprovalDM sid tok) es ->
      exists n, (next_uuid w <= n < next_uuid w')%nat /\
        tok = encode_combined_value rid (uuid_of n) /\
        (forall ts, post_dm sid tok = Some ts -> ts <> "" ->
           exists tk, tickets w' !! uuid_of n = Some tk /\ tk_request_id tk = Some rid /\
             tk_approver_slack_id tk = Some sid /\ tk_message_ts tk = Some ts /\
             tk_status tk = Some "pending").
Proof.
  induction approvers as [|e es IH]; intros sent w w'; subst w'.
  - cbn. split; [lia|]. split; [done|]. exists []. split; [by rewrite app_nil_r | intros ? ? []].
  - cbn [send_approval_loop].
    destruct (if_truthy (slack_id_of e)) as [sid|] eqn:Hs.
    + erewrite bind_ok; [|reflexivity]. cbv beta.
      erewrite bind_ok; [|reflexivity]. cbv beta.
      set (n0 := next_uuid w).
      set (tok0 := encode_combined_value rid (uuid_of n0)).
      destruct (if_truthy (post_dm sid tok0)) as [ts|] eqn:Hp.
      * erewrite bind_ok; [|reflexivity]. cbv beta.
        match goal with
        | |- context [send_approval_loop _ _ _ es (S sent) ?W] =>
            destruct (IH (S sent) W) as (Hn & Hfr & es' & He & Hdm); set (Wc := W) in *
        end.
        cbn in Hn.
        assert (Hkeep : tickets (snd (send_approval_loop slack_id_of post_dm rid es (S sent) Wc))
                          !! uuid_of n0 = tickets Wc !! uuid_of n0).
        { apply Hfr. intros n Hn0. apply uuid_of_inj in Hn0. subst Wc. cbn. lia. }
        split; [cbn in *; lia|]. split.
        -- intros k Hk. rewrite Hfr.
           ++ subst Wc. cbn. rewrite lookup_insert_ne; [done|].
              intros Hk0. specialize (Hk n0 (eq_sym Hk0)). lia.
           ++ intros n Hn'. specialize (Hk n Hn'). subst Wc. cbn. lia.
        -- exists (ApprovalDM sid tok0 :: es'). rewrite He. split.
           ++ subst Wc. cbn. by rewrite <- app_assoc.
           ++ intros sid' tok' [Heq | Hin].
              ** injection Heq as <- <-. exists n0. split; [cbn in *; lia|]. split; [done|].
                 intros ts' Hts' _. apply if_truthy_Some in Hp as [_ Hp].
                 rewrite Hp in Hts'. injection Hts' as <-.
                 rewrite Hkeep. subst Wc. cbn. rewrite lookup_insert_eq.
                 eexists. split; [reflexivity|]. by repeat split.
              ** destruct (Hdm sid' tok' Hin) as (n & Hrange & Htok & Ht).
                 exists n. split; [subst Wc; cbn in *; lia|]. by split.
      * match goal with
        | |- context [send_approval_loop _ _ _ es sent ?W] =>
            destruct (IH sent W) as (Hn & Hfr & es' & He & Hdm); set (Wb := W) in *
        end.
        split; [subst Wb; cbn in *; lia|]. split.
        -- intros k Hk. rewrite Hfr; [done|]. intros n Hn'. specialize (Hk n Hn'). subst Wb. cbn. lia.
        -- exists (ApprovalDM sid tok0 :: es'). rewrite He. split.
           ++ subst Wb. cbn. by rewrite <- app_assoc.
           ++ intros sid' tok' [Heq | Hin].
              ** injection Heq as <- <-. exists n0. split; [subst Wb; cbn in *; lia|].
                 split; [done|]. intros ts' Hts' Hne. apply if_truthy_None in Hp.
                 rewrite Hts' in Hp. cbn in Hp. apply String.eqb_neq in Hne.
                 rewrite Hne in Hp. discriminate.
              ** destruct (Hdm sid' tok' Hin) as (n & Hrange & Htok & Ht).
                 exists n. split; [subst Wb; cbn in *; lia|]. by split.
    + erewrite bind_ok; [|reflexivity]. cbv beta.
      match goal with
      | |- context [send_approval_loop _ _ _ es sent ?W] =>
          destruct (IH sent W) as (Hn & Hfr & es' & He & Hdm); set (Wb := W) in *
      end.
      split; [subst Wb; cbn in *; lia|]. split.
      * intros k Hk. rewrite Hfr; [done|]. intros n Hn'. specialize (Hk n Hn'). subst Wb. cbn. lia.
      * exists (LogWarning (ApproverNotInSlack e) :: es'). rewrite He. split.
        -- subst Wb. cbn. by rewrite <- app_assoc.
        -- intros sid' tok' [Heq | Hin]; [discriminate|].
           destruct (Hdm sid' tok' Hin) as (n & Hrange & Htok & Ht).
           exists n. split; [subst Wb; cbn in *; lia|]. by split.
Qed.

(** Every approval DM that [send_approval_requests] sends for a colon-free
    request id carries a token that splits back into that request id and a
    fresh message id; when the DM was answered with a non-empty [ts], the
    tracking item of that message id names the request, the approver's Slack id and the message
    [ts], with status [pending]. *)
Theorem approval_dm_tokens (slack_id_of : string -> option string)
    (post_dm : string -> string -> option string) (rid : string)
    (approvers : list string) (channel : string) (w : World) :
  contains_colon rid = false ->
  let w' := snd (send_approval_requests slack_id_of post_dm rid approvers channel w) in
  exists es, effects w' = (effects w ++ es)%list /\
    forall sid tok, In (ApprovalDM sid tok) es ->
      exists mid, decode_combined_value tok = Some (rid, mid) /\
        (forall ts, post_dm sid tok = Some ts -> ts <> "" ->
           exists tk, tickets w' !! mid = Some tk /\ tk_request_id tk = Some rid /\
             tk_approver_slack_id tk = Some sid /\ tk_message_ts tk = Some ts /\
             tk_status tk = Some "pending").
Proof.
  intros Hrid w'. subst w'. unfold send_approval_requests, bind.
  destruct (loop_tokens slack_id_of post_dm rid approvers 0 w) as (_ & _ & es & He & Hdm).
  destruct (send_approval_loop slack_id_of post_dm rid approvers 0 w) as [[n|ex] w1]; cbn in He, Hdm.
  - exists (es ++ [SlackMessage channel (if (0 <? n)%nat then SentToApprovers n else NoApproversReached)])%list.
    split.
    + destruct (0 <? n)%nat; cbn; rewrite He, <- app_assoc; reflexivity.
    + intros sid tok Hin. apply in_app_or in Hin as [Hin | Hin].
      * destruct (Hdm sid tok Hin) as (m & _ & -> & Ht). exists (uuid_of m).
        split; [apply decode_encode; [exact Hrid | apply uuid_of_colon_free]|].
        intros ts Hts Hne. destruct (Ht ts Hts Hne) as (tk & Htk & Hrest).
        exists tk. split; [|exact Hrest].
        destruct (0 <? n)%nat; exact Htk.
      * destruct Hin as [Hin|[]]. destruct (0 <? n)%nat; discriminate.
  - exists es. split; [exact He|]. intros sid tok Hin.
    destruct (Hdm sid tok Hin) as (m & _ & -> & Ht). exists (uuid_of m).
    split; [apply decode_encode; [exact Hrid | apply uuid_of_colon_free]|]. exact Ht.
Qed.

Lemma approval_dm_tokens_witness :
  contains_colon "req-1" = false /\
  exists es, effects (snd (send_approval_requests sample_slack_id_of sample_post_dm "req-1"
                             ["a@example.com"] "D1" init)) = (effects init ++ es)%list.
Proof.
  split; [reflexivity|].
  assert (H : contains_colon "req-1" = false) by reflexivity.
  destruct (approval_dm_tokens sample_slack_id_of sample_post_dm "req-1" ["a@example.com"] "D1"
              init H) as (es & He & _).
  exists es. exact He.
Defined.

(** ** The caches of the Approval Manager *)

Section CacheProps.
Import ApprovalCache.

(** [get_slack_bot_token] keeps a non-empty token: once a call returned
    one, the next call returns it again without calling SSM; an empty token
    is falsy for the cache test, so the next call calls SSM again. *)
Theorem slack_bot_token_cached (ssm_value : nat -> option string) (st st1 : CacheState)
    (v : string) :
  get_slack_bot_token ssm_value st = (POk v, st1) ->
  (v <> "" -> get_slack_bot_token ssm_value st1 = (POk v, st1)) /\
  (v = "" -> ssm_calls (snd (get_slack_bot_token ssm_value st1)) = S (ssm_calls st1)).
Proof.
  unfold get_slack_bot_token.
  destruct (slack_bot_token st) as [t|] eqn:Ht.
  - destruct (String.eqb t "") eqn:Hte.
    + destruct (ssm_value (ssm_calls st)) as [x|] eqn:Hx; intros H; [|discriminate].
      injection H as <- <-. cbn. split.
      * intros Hv. apply String.eqb_neq in Hv. by rewrite Hv.
      * intros ->. cbn. by destruct (ssm_value (S (ssm_calls st))).
    + intros H. injection H as <- <-. rewrite Ht, Hte. split; [done|].
      intros ->. discriminate.
  - destruct (ssm_value (ssm_calls st)) as [x|] eqn:Hx; intros H; [|discriminate].
    injection H as <- <-. cbn. split.
    + intros Hv. apply String.eqb_neq in Hv. by rewrite Hv.
    + intros ->. cbn. by destruct (ssm_value (S (ssm_calls st))).
Qed.

Lemma slack_bot_token_cached_witness :
  let st := {| slack_bot_token := None; okta_catalog_data := None; ssm_calls := 0;
               s3_calls := 0; errors_logged := 0 |} in
  let ssm := fun _ : nat => Some "xoxb-1" in
  get_slack_bot_token ssm (snd (get_slack_bot_token ssm st))
  = (POk "xoxb-1", snd (get_slack_bot_token ssm st)).
Proof.
  intros st ssm.
  apply (slack_bot_token_cached ssm st (snd (get_slack_bot_token ssm st)) "xoxb-1");
    [reflexivity | discriminate].
Defined.

(** [get_okta_catalog_data] keeps a truthy catalog: the next call returns it
    without reading S3.  A falsy result (the [{}] returned when the read
    fails, or an empty catalog) is not kept, so the next call reads S3
    again. *)
Theorem okta_catalog_cached (s3_catalog : nat -> option Json) (st st1 : CacheState) (c : Json) :
  get_okta_catalog_data s3_catalog st = (c, st1) ->
  (json_truthy c = true -> get_okta_catalog_data s3_catalog st1 = (c, st1)) /\
  (json_truthy c = false ->
     s3_calls (snd (get_okta_catalog_data s3_catalog st1)) = S (s3_calls st1)).
Proof.
  assert (Hf : forall st0, get_okta_catalog_data s3_catalog st0 = (c, st1) ->
            (exists c0, okta_catalog_data st0 = Some c0 /\ json_truthy c0 = true /\
                        c = c0 /\ st1 = st0) \/ fetch_catalog s3_catalog st0 = (c, st1)).
  { intros st0. unfold get_okta_catalog_data.
    destruct (okta_catalog_data st0) as [c0|] eqn:Hc0; [|by right].
    destruct (json_truthy c0) eqn:Ht0; [|by right].
    intros H. injection H as <- <-. left. by exists c0. }
  intros H. destruct (Hf st H) as [(c0 & Hc0 & Ht0 & -> & ->) | Hfc].
  - split; [intros _; exact H|]. congruence.
  - unfold fetch_catalog in Hfc.
    destruct (s3_catalog (s3_calls st)) as [j|] eqn:Hj.
    + injection Hfc as <- <-. split.
      * intros Hc. unfold get_okta_catalog_data. cbn. by rewrite Hc.
      * intros Hc. unfold get_okta_catalog_data. cbn. rewrite Hc.
        unfold fetch_catalog. cbn. by destruct (s3_catalog (S (s3_calls st))).
    + injection Hfc as <- <-. split; [discriminate|].
      intros _. unfold get_okta_catalog_data. cbn.
      destruct (okta_catalog_data st) as [c0|] eqn:Hc0.
      * destruct (json_truthy c0) eqn:Ht0.
        -- exfalso. unfold get_okta_catalog_data in H. rewrite Hc0, Ht0 in H.
           injection H as H1 H2. subst c0. discriminate.
        -- unfold fetch_catalog. cbn. by destruct (s3_catalog (S (s3_calls st))).
      * unfold fetch_catalog. cbn. by destruct (s3_catalog (S (s3_calls st))).
Qed.

Lemma okta_catalog_cached_witness :
  let st := {| slack_bot_token := None; okta_catalog_data := None; ssm_calls := 0;
               s3_calls := 0; errors_logged := 0 |} in
  let s3 := fun n : nat => if (n =? 0)%nat then None else Some (JObj [("applications", JArr [])]) in
  s3_calls (snd (get_okta_catalog_data s3 (snd (get_okta_catalog_data s3 st)))) = 2%nat.
Proof.
  intros st s3.
  destruct (okta_catalog_cached s3 st (snd (get_okta_catalog_data s3 st))
              (fst (get_okta_catalog_data s3 st)) eq_refl) as [_ H].
  exact (H eq_refl).
Defined.

End CacheProps.

(** ** The Event Handler *)

Section RouterProps.
Import EventHandler.

Variable ssm_value : nat -> option string.
Variable json_loads : string -> option Json.
Variable parse_qs : string -> list (string * list string).
Variable py_int : string -> option Z.
Variable hmac_sha256_hex : string -> string -> string.
Variable invoke_ok : string -> Json -> bool.

Local Abbreviation verify := (verify_slack_signature ssm_value py_int hmac_sha256_hex).
Local Abbreviation handler :=
  (EventHandler.lambda_handler ssm_value json_loads parse_qs py_int hmac_sha256_hex invoke_ok).

(** [lambda_handler] answers 401 when the timestamp or the signature header
    is missing or empty, having only logged it: no secret read, no Lambda
    invoked. *)
Theorem missing_headers_rejected (ev : SlackEvent) (now : Q) (w : EWorld) :
  header ev "x-slack-request-timestamp" = "" \/ header ev "x-slack-signature" = "" ->
  handler ev now w
  = (POk {| status_code := 401; body := JStr "Invalid signature" |},
     with_calls w [Log MissingSignatureHeaders]).
Proof.
  intros H. unfold EventHandler.lambda_handler, verify_slack_signature.
  assert (Hor : (String.eqb (header ev "x-slack-request-timestamp") ""
                 || String.eqb (header ev "x-slack-signature") "") = true).
  { destruct H as [H|H]; rewrite H; [done|]. apply orb_true_r. }
  rewrite Hor. reflexivity.
Qed.

(** A request whose timestamp is an integer that converts to a float and
    is more than 300 seconds away from the clock is answered 401 whatever
    its signature, having only logged it: no secret read, no Lambda
    invoked. *)
Theorem stale_request_rejected (ev : SlackEvent) (now : Q) (w : EWorld) (t : Z) :
  header ev "x-slack-request-timestamp" <> "" -> header ev "x-slack-signature" <> "" ->
  py_int (header ev "x-slack-request-timestamp") = Some t ->
  (Z.abs t < float_overflow_bound)%Z ->
  Qlt (inject_Z 300) (Qabs (Qminus now (inject_Z t))) ->
  handler ev now w
  = (POk {| status_code := 401; body := JStr "Invalid signature" |},
     with_calls w [Log (RequestTooOld (header ev "x-slack-request-timestamp"))]).
Proof.
  intros Hts Hsig Hint Hfl Hold. unfold EventHandler.lambda_handler, verify_slack_signature.
  apply String.eqb_neq in Hts, Hsig. rewrite Hts, Hsig. cbn [orb]. rewrite Hint.
  apply Z.leb_gt in Hfl. rewrite Hfl.
  assert (Hle : Qle_bool (Qabs (Qminus now (inject_Z t))) (inject_Z 300) = false).
  { destruct (Qle_bool _ _) eqn:E; [|done]. apply Qle_bool_iff in E.
    exfalso. exact (Qlt_not_le _ _ Hold E). }
  rewrite Hle. reflexivity.
Qed.



(** A clock value that is a finite double leaves no room for overflow in a
    timestamp within 300 seconds of it. *)
Lemma near_float_no_overflow (now : Q) (t : Z) :
  Qle (Qabs now) (inject_Z float_max) ->
  Qle (Qabs (Qminus now (inject_Z t))) (inject_Z 300) ->
  (Z.abs t < float_overflow_bound)%Z.
Proof.
  intros Hn Hd.
  apply Qabs_Qle_condition in Hn as [Hn1 Hn2].
  apply Qabs_Qle_condition in Hd as [Hd1 Hd2].
  assert (Hb : (float_max + 300 < float_overflow_bound)%Z) by (vm_compute; reflexivity).
  rewrite Zlt_Qlt, inject_Z_plus in Hb.
  rewrite Zlt_Qlt.
  destruct (Z.abs_spec t) as [[_ ->]|[_ ->]]; [|rewrite inject_Z_opp]; lra.
Qed.

Lemma is_ascii_v0 (x : string) : is_ascii ("v0=" +:+ x) = is_ascii x.
Proof. rewrite !string_app_cons, string_app_nil_l. reflexivity. Qed.

Lemma json_is_str_eq (j : Json) (s : string) : json_is_str j s = true -> j = JStr s.
Proof. destruct j; cbn; try discriminate. intros H. by apply String.eqb_eq in H as ->. Qed.

(** [verify_slack_signature] accepts exactly the requests with both headers,
    an integer timestamp within 300 seconds of the clock, and a signature
    equal to ["v0=" + HMAC-SHA256(secret, "v0:" + timestamp + ":" + body)]
    for the secret [get_signing_secret] returns (the digest being a hex, so
    ASCII, string, and the clock [time.time()] a finite double). *)
Theorem signature_accepted_iff (ev : SlackEvent) (now : Q) (w : EWorld) :
  (forall k m, is_ascii (hmac_sha256_hex k m) = true) ->
  Qle (Qabs now) (inject_Z float_max) ->
  fst (verify ev now w) = POk true <->
  header ev "x-slack-request-timestamp" <> "" /\
  exists t secret,
    py_int (header ev "x-slack-request-timestamp") = Some t /\
    Qle (Qabs (Qminus now (inject_Z t))) (inject_Z 300) /\
    fst (get_signing_secret ssm_value w) = POk secret /\
    header ev "x-slack-signature"
    = "v0=" +:+ hmac_sha256_hex secret
                  ("v0:" +:+ header ev "x-slack-request-timestamp" +:+ ":" +:+ ev_body ev).
Proof.
  intros Hhex Hnow. unfold verify_slack_signature.
  set (ts := header ev "x-slack-request-timestamp").
  set (sg := header ev "x-slack-signature").
  destruct (String.eqb ts "") eqn:E1.
  { cbn. split; [discriminate|]. intros [H _]. apply String.eqb_eq in E1. contradiction. }
  destruct (String.eqb sg "") eqn:E2; cbn [orb].
  { cbn. split; [discriminate|]. intros (_ & t & sec & _ & _ & _ & Hsg).
    rewrite Hsg, !string_app_cons in E2. discriminate. }
  destruct (py_int ts) as [t|] eqn:Ei.
  2:{ cbn. split; [discriminate|]. intros (_ & t & _ & H & _). discriminate. }
  destruct (float_overflow_bound <=? Z.abs t)%Z eqn:Efl.
  { cbn. split; [discriminate|]. intros (_ & t' & _ & Ht' & Hq & _).
    injection Ht' as <-. apply Z.leb_le in Efl.
    pose proof (near_float_no_overflow now t Hnow Hq). lia. }
  destruct (Qle_bool (Qabs (Qminus now (inject_Z t))) (inject_Z 300)) eqn:Eq; cbn [negb].
  2:{ split; [cbn; discriminate|]. intros (_ & t' & _ & Ht' & Hq & _).
      injection Ht' as <-. apply Qle_bool_iff in Hq. congruence. }
  unfold ebind at 1.
  destruct (get_signing_secret ssm_value w) as [[sec|e] w1] eqn:Es; cbn [fst snd lift].
  - split.
    + intros H. unfold compare_digest in H.
      destruct (is_ascii _ && is_ascii _); [|discriminate].
      match type of H with POk (String.eqb ?a ?b) = _ =>
        destruct (String.eqb a b) eqn:Hab; [|discriminate] end.
      apply String.eqb_eq in Hab.
      split; [by apply String.eqb_neq|]. exists t, sec.
      split; [done|]. split; [by apply Qle_bool_iff|]. split; [done|]. by rewrite <- Hab.
    + intros (_ & t' & sec' & _ & _ & Hs & Hsg). injection Hs as <-.
      unfold compare_digest. rewrite Hsg, is_ascii_v0, Hhex, String.eqb_refl. reflexivity.
  - split; [discriminate|]. intros (_ & t' & sec' & _ & _ & Hs & _). discriminate.
Qed.




Lemma interactivity_body_calls (body_raw : string) (w : EWorld) :
  snd (interactivity_body json_loads parse_qs invoke_ok body_raw w) = w \/
  exists kvs, snd (interactivity_body json_loads parse_qs invoke_ok body_raw w)
    = with_calls w [InvokeLambda "hagrid-approval-manager"
                      (JObj (("type", JStr "approval_response") :: kvs))].
Proof.
  unfold interactivity_body, ebind, lift, invoke, record_call, eret.
  repeat (case_match; cbn; try (left; reflexivity)).
  all: right; eexists; reflexivity.
Qed.

Lemma with_calls_nil (w : EWorld) : with_calls w [] = w.
Proof. destruct w. unfold with_calls. cbn. by rewrite app_nil_r. Qed.

Lemma with_calls_app (w : EWorld) (a b : list Call) :
  with_calls (with_calls w a) b = with_calls w (a ++ b).
Proof. unfold with_calls. cbn. by rewrite app_assoc. Qed.

Lemma handle_interactivity_result (body_raw : string) (w : EWorld) :
  fst (handle_interactivity json_loads parse_qs invoke_ok body_raw w) = POk tt /\
  exists pre post,
    snd (handle_interactivity json_loads parse_qs invoke_ok body_raw w)
    = with_calls w (pre ++ post) /\
    (pre = [] \/ exists kvs, pre = [InvokeLambda "hagrid-approval-manager"
                                     (JObj (("type", JStr "approval_response") :: kvs))]) /\
    (post = [] \/ post = [Log InteractivityError]).
Proof.
  unfold handle_interactivity, try_except.
  destruct (interactivity_body_calls body_raw w) as [H | [kvs H]];
    destruct (interactivity_body json_loads parse_qs invoke_ok body_raw w) as [[[]|e] w1];
    cbn in H; subst w1; cbn [fst snd]; split; try reflexivity.
  - exists [], []. split; [by rewrite with_calls_nil|]. split; by left.
  - exists [], [Log InteractivityError]. split; [reflexivity|]. split; [by left | by right].
  - eexists _, []. split; [by rewrite app_nil_r|]. split; [right; by exists kvs | by left].
  - eexists _, [Log InteractivityError]. unfold record_call. split.
    + unfold with_calls. cbn. by rewrite <- app_assoc.
    + split; [right; by exists kvs | by right].
Qed.

(** [handle_json_event] invokes a Lambda only for an [event_callback] whose
    event has type [message] and no truthy [bot_id], and then only
    [hagrid-conversation-manager], once, with the user, text, channel and
    [ts] of the event; every other body leaves the world unchanged. *)
Theorem conversation_forward_conditions (body_raw : string) (w : EWorld) :
  snd (handle_json_event json_loads invoke_ok body_raw w) = w \/
  exists kvs ekvs,
    json_loads body_raw = Some (JObj kvs) /\
    dict_get kvs "type" = Some (JStr "event_callback") /\
    default (JObj []) (dict_get kvs "event") = JObj ekvs /\
    dict_get ekvs "type" = Some (JStr "message") /\
    json_truthy (default JNull (dict_get ekvs "bot_id")) = false /\
    snd (handle_json_event json_loads invoke_ok body_raw w)
    = with_calls w [InvokeLambda "hagrid-conversation-manager"
                      (JObj [("user_id", default JNull (dict_get ekvs "user"));
                             ("text", default (JStr "") (dict_get ekvs "text"));
                             ("channel", default JNull (dict_get ekvs "channel"));
                             ("message_ts", default JNull (dict_get ekvs "ts"))])].
Proof.
  unfold handle_json_event.
  destruct (json_loads body_raw) as [j|] eqn:Hj; [|by left].
  destruct j as [| | | | |kvs]; try (left; reflexivity).
  unfold ebind at 1. cbn [py_get lift fst snd].
  destruct (json_is_str (default JNull (dict_get kvs "type")) "url_verification") eqn:Hu.
  { left. reflexivity. }
  unfold ebind at 1. cbn [py_get lift fst snd].
  destruct (json_is_str (default JNull (dict_get kvs "type")) "event_callback") eqn:Hc.
  2:{ left. reflexivity. }
  assert (Hty : dict_get kvs "type" = Some (JStr "event_callback")).
  { apply json_is_str_eq in Hc. destruct (dict_get kvs "type"); cbn in Hc; congruence. }
  unfold ebind at 2. cbn [lift fst snd].
  destruct (default (JObj []) (dict_get kvs "event")) as [| | | | |ekvs] eqn:He;
    try (left; reflexivity).
  unfold ebind at 2. cbn [py_get lift fst snd].
  destruct (json_is_str (default JNull (dict_get ekvs "type")) "message") eqn:Hm.
  2:{ left. reflexivity. }
  assert (Hmt : dict_get ekvs "type" = Some (JStr "message")).
  { apply json_is_str_eq in Hm. destruct (dict_get ekvs "type"); cbn in Hm; congruence. }
  unfold ebind at 2. cbn [py_get lift fst snd].
  destruct (json_truthy (default JNull (dict_get ekvs "bot_id"))) eqn:Hb.
  { left. reflexivity. }
  right. exists kvs, ekvs. do 5 (split; [done|]).
  unfold ebind, invoke, record_call. cbn. rewrite Hu, Hc, Hm, Hb. cbn.
  destruct (invoke_ok _ _); reflexivity.
Qed.



(** A form-encoded request that passed the signature check is answered
    [200 ok] whatever its body: [handle_interactivity] swallows every
    exception. *)
Theorem form_post_answered_ok (ev : SlackEvent) (now : Q) (w : EWorld) :
  fst (verify ev now w) = POk true ->
  contains_sub "application/x-www-form-urlencoded" (header ev "content-type") = true ->
  fst (handler ev now w) = POk {| status_code := 200; body := JStr "ok" |}.
Proof.
  intros Hv Hct. unfold EventHandler.lambda_handler. unfold ebind at 1.
  destruct (verify ev now w) as [r w1]. cbn [fst] in Hv. subst r. cbn [negb].
  rewrite Hct. unfold ebind.
  destruct (handle_interactivity_result (ev_body ev) w1) as (Hok & _).
  destruct (handle_interactivity json_loads parse_qs invoke_ok (ev_body ev) w1) as [r w2].
  cbn in Hok. subst r. reflexivity.
Qed.

(** [handle_json_event] answers a body that is not JSON with
    [200 Invalid JSON], and a [url_verification] body with its [challenge];
    both leave the world unchanged. *)
Theorem json_event_answers (body_raw : string) (w : EWorld) :
  (json_loads body_raw = None ->
   handle_json_event json_loads invoke_ok body_raw w
   = (POk {| status_code := 200; body := JStr "Invalid JSON" |}, w)) /\
  (forall kvs, json_loads body_raw = Some (JObj kvs) ->
   dict_get kvs "type" = Some (JStr "url_verification") ->
   handle_json_event json_loads invoke_ok body_raw w
   = (POk {| status_code := 200; body := default JNull (dict_get kvs "challenge") |}, w)).
Proof.
  split.
  - intros H. unfold handle_json_event. by rewrite H.
  - intros kvs H Ht. unfold handle_json_event. rewrite H. unfold ebind. cbn.
    rewrite Ht. cbn. reflexivity.
Qed.

End RouterProps.

Section RouterWitnesses.
Import EventHandler.

Lemma missing_headers_rejected_witness :
  let ev := {| ev_headers := [("X-Slack-Signature", "v0=abc")]; ev_body := "" |} in
  let w := {| signing_secret := None; ssm_reads := 0; calls := [] |} in
  header ev "x-slack-request-timestamp" = "" /\
  EventHandler.lambda_handler (fun _ => None) (fun _ => None) (fun _ => []) (fun _ => None)
    (fun _ _ => "") (fun _ _ => true) ev 0 w
  = (POk {| status_code := 401; body := JStr "Invalid signature" |},
     with_calls w [Log MissingSignatureHeaders]).
Proof.
  intros ev w. split; [reflexivity|].
  apply (missing_headers_rejected (fun _ => None) (fun _ => None) (fun _ => []) (fun _ => None)
           (fun _ _ => "") (fun _ _ => true) ev 0 w).
  left. reflexivity.
Defined.

Lemma stale_request_rejected_witness :
  let ev := {| ev_headers := [("X-Slack-Request-Timestamp", "1000");
                              ("X-Slack-Signature", "v0=abc")]; ev_body := "" |} in
  let w := {| signing_secret := None; ssm_reads := 0; calls := [] |} in
  EventHandler.lambda_handler (fun _ => None) (fun _ => None) (fun _ => []) (fun _ => Some 1000%Z)
    (fun _ _ => "") (fun _ _ => true) ev (inject_Z 2000) w
  = (POk {| status_code := 401; body := JStr "Invalid signature" |},
     with_calls w [Log (RequestTooOld "1000")]).
Proof.
  intros ev w.
  apply (stale_request_rejected (fun _ => None) (fun _ => None) (fun _ => []) (fun _ => Some 1000%Z)
           (fun _ _ => "") (fun _ _ => true) ev (inject_Z 2000) w 1000%Z);
    [discriminate | discriminate | reflexivity | reflexivity | reflexivity].
Defined.



Lemma signature_accepted_iff_witness :
  let ev := {| ev_headers := [("X-Slack-Request-Timestamp", "1000");
                              ("X-Slack-Signature", "v0=ab12")]; ev_body := "token=x" |} in
  let w := {| signing_secret := None; ssm_reads := 0; calls := [] |} in
  fst (verify_slack_signature (fun _ => Some "s3cr3t") (fun _ => Some 1000%Z)
         (fun _ _ => "ab12") ev (inject_Z 1010) w) = POk true.
Proof.
  intros ev w.
  apply (proj2 (signature_accepted_iff (fun _ => Some "s3cr3t") (fun _ => Some 1000%Z)
                  (fun _ _ => "ab12") ev (inject_Z 1010) w (fun _ _ => eq_refl)
                  ltac:(apply Qle_bool_iff; vm_compute; reflexivity))).
  split; [discriminate|]. exists 1000%Z, "s3cr3t".
  split; [reflexivity|]. split; [apply Qle_bool_iff; reflexivity|].
  split; reflexivity.
Defined.

Lemma form_post_answered_ok_witness :
  let ev := {| ev_headers := [("X-Slack-Request-Timestamp", "1000");
                              ("X-Slack-Signature", "v0=ab12");
                              ("Content-Type", "application/x-www-form-urlencoded")];
               ev_body := "payload=%7B%7D" |} in
  let w := {| signing_secret := None; ssm_reads := 0; calls := [] |} in
  fst (EventHandler.lambda_handler (fun _ => Some "s3cr3t") (fun _ => Some (JArr []))
         (fun _ => [("payload", ["[]"])]) (fun _ => Some 1000%Z) (fun _ _ => "ab12")
         (fun _ _ => true) ev (inject_Z 1010) w)
  = POk {| status_code := 200; body := JStr "ok" |}.
Proof.
  intros ev w.
  apply (form_post_answered_ok (fun _ => Some "s3cr3t") (fun _ => Some (JArr []))
           (fun _ => [("payload", ["[]"])]) (fun _ => Some 1000%Z) (fun _ _ => "ab12")
           (fun _ _ => true) ev (inject_Z 1010) w); reflexivity.
Defined.

Lemma json_event_answers_witness :
  let jl := fun _ : string => Some (JObj [("type", JStr "url_verification");
                                          ("challenge", JStr "abc")]) in
  let w := {| signing_secret := None; ssm_reads := 0; calls := [] |} in
  handle_json_event jl (fun _ _ => true) "{...}" w
  = (POk {| status_code := 200; body := JStr "abc" |}, w).
Proof.
  intros jl w.
  exact (proj2 (json_event_answers jl (fun _ _ => true) "{...}" w)
           [("type", JStr "url_verification"); ("challenge", JStr "abc")] eq_refl eq_refl).
Defined.

End RouterWitnesses.
